(** * Adaptive retrieval-and-reasoning engine: a shallow embedding

    The definitions below follow
    [frontend/src/retrieval/enhanced_agentic_retrieval.py],
    [frontend/src/retrieval/logical_filter_tool.py] and
    [src/retrieval/enhanced_reasoning_stream.py].

    Modelling conventions.
    - Python [float] values (scores, complexity, confidence) are rationals
      ([Q]); the decimal literals of the source are the corresponding
      fractions. Rounding is not modelled: where the source branches on a
      computed mean, in the adaptive test, the mean is numpy's own and comes
      with the collaborators ([np_mean]).
    - Python [int] is [Z]; [//] is [Z.div] (both floor), a slice [l[:m]] is
      [py_slice_to].
    - Python [str] is [string], restricted to ASCII for [lower], [split]
      and [isupper].
    - Values produced by [uuid.uuid4()] and [datetime.now()] are taken as
      arguments.
    - Exceptions are explicit: a call that may raise lives in the monad [M],
      which threads the shared [reasoning_chain] list (mutated in place by
      the source) through failures as well. *)

From Stdlib Require Import QArith Qminmax Lqa Ascii String DecimalString.
From stdpp Require Import gmap strings list fin_maps sorting.

Local Open Scope Z_scope.

(** ** Python string primitives (ASCII) *)

Module PyStr.

Definition is_upper_ascii (c : ascii) : bool :=
  let n := nat_of_ascii c in (65 <=? n)%nat && (n <=? 90)%nat.

Definition lower_ascii (c : ascii) : ascii :=
  if is_upper_ascii c then ascii_of_nat (nat_of_ascii c + 32) else c.

(** [s.lower()] *)
Fixpoint lower (s : string) : string :=
  match s with
  | EmptyString => EmptyString
  | String c r => String (lower_ascii c) (lower r)
  end.

(** [needle in hay] *)
Fixpoint contains (needle hay : string) : bool :=
  String.prefix needle hay
  || match hay with
     | EmptyString => false
     | String _ r => contains needle r
     end.

(** The whitespace of [str.split()] within ASCII: tab, newline, vertical
    tab, form feed, carriage return, the four separators 28..31, space. *)
Definition is_space_ascii (c : ascii) : bool :=
  let n := nat_of_ascii c in
  ((9 <=? n)%nat && (n <=? 13)%nat) || ((28 <=? n)%nat && (n <=? 32)%nat).

Definition flush (cur : string) (acc : list string) : list string :=
  match cur with
  | EmptyString => acc
  | _ => String.rev cur :: acc
  end.

(** [cur] is the word being read (reversed), [acc] the words read so far
    (reversed). *)
Fixpoint split_go (s cur : string) (acc : list string) : list string :=
  match s with
  | EmptyString => rev (flush cur acc)
  | String c r =>
      if is_space_ascii c then split_go r EmptyString (flush cur acc)
      else split_go r (String c cur) acc
  end.

(** [s.split()] *)
Definition split (s : string) : list string := split_go s EmptyString [].

(** [len(s)] *)
Definition len (s : string) : Z := Z.of_nat (String.length s).

(** [w[0].isupper()]; indexing an empty string raises [IndexError]. *)
Definition first_isupper (w : string) : option bool :=
  match w with
  | EmptyString => None
  | String c _ => Some (is_upper_ascii c)
  end.

End PyStr.

(** ** Python list primitives *)

(** [l[:m]] for an integer [m] of either sign. *)
Definition py_slice_to {A} (m : Z) (l : list A) : list A :=
  if 0 <=? m then take (Z.to_nat m) l
  else take (Z.to_nat (Z.of_nat (length l) + m)) l.

(** [any(kw in s for kw in kws)] *)
Definition any_in (kws : list string) (s : string) : bool :=
  existsb (fun kw => PyStr.contains kw s) kws.

(** [sum(1 for kw in kws if kw in s)] *)
Definition count_in (kws : list string) (s : string) : Z :=
  Z.of_nat (length (filter (fun kw => PyStr.contains kw s = true) kws)).

(** ** Rational helpers *)

Definition Qltb (x y : Q) : bool := negb (Qle_bool y x).

(** [sum(xs)] and the exact mean, which the confidence formula takes for
    [np.mean(xs)]. *)
Definition Qsum (xs : list Q) : Q := foldr Qplus 0%Q xs.
Definition Qmean (xs : list Q) : Q := (Qsum xs / inject_Z (Z.of_nat (length xs)))%Q.

(** ** Exceptions *)

(** [str(e)] of the exception raised. *)
Definition Exn := string.

Inductive outcome (A : Type) :=
  | Raised (e : Exn)
  | Returned (a : A).
Arguments Raised {A} e.
Arguments Returned {A} a.

Definition obind {A B} (o : outcome A) (k : A -> outcome B) : outcome B :=
  match o with
  | Raised e => Raised e
  | Returned a => k a
  end.

(** [for x in xs: acc.extend(f(x))], stopping at the first exception. *)
Fixpoint oconcat_map {A B} (f : A -> outcome (list B)) (xs : list A) : outcome (list B) :=
  match xs with
  | [] => Returned []
  | x :: r =>
      obind (f x) (fun ys => obind (oconcat_map f r) (fun zs => Returned (ys ++ zs)))
  end.

#[global] Instance outcome_ret : MRet outcome := @Returned.
#[global] Instance outcome_bind : MBind outcome := fun A B k o => obind o k.

(** ** Data model *)

Inductive RetrievalStrategy :=
  | VECTOR_ONLY | GRAPH_ONLY | LOGICAL_FILTER | HYBRID | ADAPTIVE.

Definition strategy_value (s : RetrievalStrategy) : string :=
  match s with
  | VECTOR_ONLY => "vector_only"
  | GRAPH_ONLY => "graph_only"
  | LOGICAL_FILTER => "logical_filter"
  | HYBRID => "hybrid"
  | ADAPTIVE => "adaptive"
  end.

(** [filters] and [context] are never read; they are left out. *)
Record RetrievalQuery := mkRetrievalQuery {
  q_id : string;
  q_text : string;
  intent : string;
  entities_mentioned : list string;
  query_type : string;
  complexity_score : Q
}.

(** [metadata] and [reasoning] are carried along by the source and never
    read by the orchestrator; they are left out. *)
Record RetrievalResult := mkRetrievalResult {
  r_id : string;
  content : string;
  score : Q;
  source_type : string
}.

(** ** QueryAnalyzer *)

Module QueryAnalyzer.

Definition entity_keywords : list string := ["who"; "what"; "where"; "when"; "which"].
Definition relationship_keywords : list string :=
  ["how"; "why"; "relationship"; "connected"; "related"].
Definition filter_keywords : list string := ["filter"; "where"; "having"; "with"; "without"].

Definition _determine_intent (query_lower : string) : string :=
  if any_in entity_keywords query_lower then "entity_lookup"
  else if any_in relationship_keywords query_lower then "relationship_exploration"
  else if any_in filter_keywords query_lower then "filtered_search"
  else "general_search".

(** The loop of [_extract_entities]; [word[0]] on an empty word raises
    [IndexError] before [len(word)] is looked at. *)
Fixpoint extract_loop (words : list string) : outcome (list string) :=
  match words with
  | [] => Returned []
  | word :: rest =>
      match PyStr.first_isupper word with
      | None => Raised "string index out of range"
      | Some upper =>
          entities ← extract_loop rest;
          mret (if upper && (2 <? String.length word)%nat
                then word :: entities else entities)
      end
  end.

Definition _extract_entities (query_text : string) : outcome (list string) :=
  extract_loop (PyStr.split query_text).

Definition _determine_query_type (query_lower : string) : string :=
  if PyStr.contains "similar" query_lower || PyStr.contains "like" query_lower
  then "similarity"
  else if PyStr.contains "path" query_lower || PyStr.contains "connect" query_lower
  then "path_finding"
  else if PyStr.contains "all" query_lower || PyStr.contains "list" query_lower
  then "comprehensive"
  else "targeted".

Definition logical_ops : list string := ["and"; "or"; "not"; "but"; "except"].
Definition question_words : list string := ["who"; "what"; "where"; "when"; "why"; "how"].

Definition length_factor (query_text : string) : Q :=
  Qmin (inject_Z (PyStr.len query_text) / 200) (3 # 10).
Definition entity_factor (entities : list string) : Q :=
  Qmin (inject_Z (Z.of_nat (length entities)) / 10) (3 # 10).
Definition op_factor (query_text : string) : Q :=
  Qmin (inject_Z (count_in logical_ops (PyStr.lower query_text)) / 5) (2 # 10).
Definition question_factor (query_text : string) : Q :=
  Qmin (inject_Z (count_in question_words (PyStr.lower query_text)) / 3) (2 # 10).

Definition _calculate_complexity (query_text : string) (entities : list string) : Q :=
  let complexity := 0%Q in
  let complexity := (complexity + length_factor query_text)%Q in
  let complexity := (complexity + entity_factor entities)%Q in
  let complexity := (complexity + op_factor query_text)%Q in
  let complexity := (complexity + question_factor query_text)%Q in
  Qmin complexity 1.

(** [fresh_id] stands for [str(uuid.uuid4())]. *)
Definition analyze_query (fresh_id query_text : string) : outcome RetrievalQuery :=
  let query_lower := PyStr.lower query_text in
  let intent := _determine_intent query_lower in
  entities ← _extract_entities query_text;
  let query_type := _determine_query_type query_lower in
  let complexity := _calculate_complexity query_text entities in
  mret (mkRetrievalQuery fresh_id query_text intent entities query_type complexity).

End QueryAnalyzer.

(** ** StrategySelector *)

Module StrategySelector.

Definition strategy_rules : gmap string RetrievalStrategy :=
  list_to_map
    [("entity_lookup", VECTOR_ONLY);
     ("relationship_exploration", GRAPH_ONLY);
     ("filtered_search", LOGICAL_FILTER);
     ("general_search", HYBRID)].

Definition select_strategy (query : RetrievalQuery) : RetrievalStrategy :=
  if Qltb (complexity_score query) (3 # 10) then VECTOR_ONLY
  else if Qltb (7 # 10) (complexity_score query) then ADAPTIVE
  else default HYBRID (strategy_rules !! intent query).

End StrategySelector.

(** ** The shared reasoning chain *)

(** One record appended to [reasoning_chain]; the constructor carries the
    [details] of the source, [step_name] is the value under ["step"]. *)
Inductive ChainStep :=
  | QueryAnalysisStep (intent : string) (complexity : Q)
      (entities : list string) (strategy_selected : string)
  | VectorSearchUnavailable
  | VectorSearch (query : string)
  | VectorResults (results_found : nat)
  | VectorSearchError (error : Exn)
  | GraphSearchUnavailable
  | GraphSearch (entities : list string)
  | GraphResults (results_found : nat)
  | GraphSearchError (error : Exn)
  | LogicalFilterStep
  | FilterResults (results_found : nat)
  | HybridSearch
  | HybridCombination (vector_results graph_results combined_unique : nat)
  | AdaptiveSearch
  | AdaptiveDecision (initial_quality : Q) (final_count : nat)
  | ErrorStep (error : Exn).

Definition step_name (s : ChainStep) : string :=
  match s with
  | QueryAnalysisStep _ _ _ _ => "query_analysis"
  | VectorSearchUnavailable => "vector_search_unavailable"
  | VectorSearch _ => "vector_search"
  | VectorResults _ => "vector_results"
  | VectorSearchError _ => "vector_search_error"
  | GraphSearchUnavailable => "graph_search_unavailable"
  | GraphSearch _ => "graph_search"
  | GraphResults _ => "graph_results"
  | GraphSearchError _ => "graph_search_error"
  | LogicalFilterStep => "logical_filter"
  | FilterResults _ => "filter_results"
  | HybridSearch => "hybrid_search"
  | HybridCombination _ _ _ => "hybrid_combination"
  | AdaptiveSearch => "adaptive_search"
  | AdaptiveDecision _ _ => "adaptive_decision"
  | ErrorStep _ => "error"
  end.

(** A computation that appends to the one [reasoning_chain] list and may
    raise; what was appended before an exception stays appended. *)
Definition M (A : Type) := list ChainStep -> list ChainStep * outcome A.

Definition ret {A} (a : A) : M A := fun ch => (ch, Returned a).
Definition raise {A} (e : Exn) : M A := fun ch => (ch, Raised e).
Definition bind {A B} (m : M A) (k : A -> M B) : M B :=
  fun ch =>
    match m ch with
    | (ch', Returned a) => k a ch'
    | (ch', Raised e) => (ch', Raised e)
    end.
Definition lift {A} (o : outcome A) : M A := fun ch => (ch, o).
(** [reasoning_chain.append(step)] *)
Definition append (s : ChainStep) : M unit := fun ch => (ch ++ [s], Returned tt).
(** [try: body except Exception as e: handler(e)] *)
Definition try_catch {A} (body : M A) (handler : Exn -> M A) : M A :=
  fun ch =>
    match body ch with
    | (ch', Returned a) => (ch', Returned a)
    | (ch', Raised e) => handler e ch'
    end.

#[global] Instance M_ret : MRet M := @ret.
#[global] Instance M_bind : MBind M := fun A B k m => bind m k.

(** ** External collaborators *)

(** A hit of the index: its id, its document and its distance. The
    document is a string, as [content: str] of [RetrievalResult] declares. *)
Record ChromaHit := mkChromaHit {
  hit_id : string;
  hit_document : string;
  hit_distance : Q
}.

(** [chroma_client.query(query_embeddings=[e], n_results=n)] and
    [chroma_client.query(query_texts=[t], n_results=n)]; a malformed answer
    makes the source raise while reading it, inside the same [try], so it
    is a [Raised] outcome here. *)
Record ChromaClient := mkChromaClient {
  query_by_embedding : list Q -> Z -> outcome (list ChromaHit);
  query_by_text : string -> Z -> outcome (list ChromaHit)
}.

Record Node := mkNode { node_id : string; node_label : string }.
Record Relation := mkRelation { rel_type : string; rel_weight : option Q }.
Definition Triple : Type := Node * Relation * Node.

(** The three Cypher queries the orchestrator sends, and opening a
    session. *)
Record Neo4jDriver := mkNeo4jDriver {
  session : outcome unit;
  run_find : string -> outcome (list Node);
  run_neighborhood : string -> Z -> outcome (list Triple);
  run_general : string -> Z -> outcome (list Triple)
}.

(** What the orchestrator is built on: the index client, the graph driver
    and the embedding model, each of which may be missing, and numpy's
    [np.mean] on a list of scores. The mean is the library's: it is computed
    in double precision, where it can differ from the exact mean in the last
    place, so the adaptive test below, a strict comparison at a threshold,
    reads it from here and no property of it is assumed. *)
Record Tools := mkTools {
  chroma_client : option ChromaClient;
  neo4j_driver : option Neo4jDriver;
  embedding_model : option (string -> outcome (list Q));
  np_mean : list Q -> Q
}.

Record RetrievalResponse := mkRetrievalResponse {
  query_id : string;
  strategy_used : string;
  results : list RetrievalResult;
  reasoning_chain : list ChainStep;
  total_results : nat;
  confidence_score : Q
}.

(** ** EnhancedAgenticRetrieval *)

(** [s.strip()] *)
Fixpoint lstrip (s : string) : string :=
  match s with
  | EmptyString => EmptyString
  | String c r => if PyStr.is_space_ascii c then lstrip r else s
  end.
Definition strip (s : string) : string :=
  String.rev (lstrip (String.rev (lstrip s))).

(** [l.sort(key=lambda x: x.score, reverse=True)]: a stable sort, so among
    equal scores the earlier element stays first. *)
Fixpoint insert_desc (x : RetrievalResult) (l : list RetrievalResult) : list RetrievalResult :=
  match l with
  | [] => [x]
  | y :: r => if Qltb (score x) (score y) then y :: insert_desc x r else x :: y :: r
  end.
Definition sort_by_score_desc (l : list RetrievalResult) : list RetrievalResult :=
  foldr insert_desc [] l.

(** The deduplication loop of [_hybrid_retrieval]. *)
Fixpoint dedup_go (seen_content : gset string) (all_results : list RetrievalResult)
  : list RetrievalResult :=
  match all_results with
  | [] => []
  | result :: rest =>
      let content_key := strip (PyStr.lower (content result)) in
      if decide (content_key ∈ seen_content) then dedup_go seen_content rest
      else result :: dedup_go ({[content_key]} ∪ seen_content) rest
  end.
Definition dedup (all_results : list RetrievalResult) : list RetrievalResult :=
  dedup_go ∅ all_results.

Definition hit_to_result (h : ChromaHit) : RetrievalResult :=
  mkRetrievalResult (hit_id h) (hit_document h) (1 - hit_distance h)%Q "vector".

Definition triple_to_result (t : Triple) : RetrievalResult :=
  let '(center, relation, connected) := t in
  mkRetrievalResult
    ("graph_" +:+ node_id center +:+ "_" +:+ node_id connected)
    (node_label center +:+ " " +:+ rel_type relation +:+ " " +:+ node_label connected)
    (default (1 # 2)%Q (rel_weight relation))
    "graph".

Section Orchestrator.

Variable tools : Tools.

(** The calls to the collaborators inside the [try] of
    [_vector_retrieval]: the embedding, when a model is configured, and
    the index query. [if query_embedding:] is false for [None] and for an
    empty vector. *)
Definition vector_search_call (client : ChromaClient) (query : RetrievalQuery)
  (max_results : Z) : outcome (list ChromaHit) :=
  query_embedding ←
    match embedding_model tools with
    | Some encode => e ← encode (q_text query); mret (Some e)
    | None => mret None
    end;
  match query_embedding with
  | Some (x :: e) => query_by_embedding client (x :: e) max_results
  | _ => query_by_text client (q_text query) max_results
  end.

Definition _vector_retrieval (query : RetrievalQuery) (max_results : Z)
  : M (list RetrievalResult) :=
  match chroma_client tools with
  | None => append VectorSearchUnavailable;; mret []
  | Some client =>
      append (VectorSearch (q_text query));;
      try_catch
        (search_results ← lift (vector_search_call client query max_results);
         let results := map hit_to_result search_results in
         append (VectorResults (length results));;
         mret results)
        (fun e => append (VectorSearchError e);; mret [])
  end.

(** The body of the [try] of [_graph_retrieval] up to the trace record:
    the nested loops over entities, entity nodes and neighbours. *)
Definition graph_collect (driver : Neo4jDriver) (query : RetrievalQuery) (max_results : Z)
  : outcome (list RetrievalResult) :=
  match entities_mentioned query with
  | _ :: _ =>
      session driver;;
      oconcat_map
        (fun entity_name =>
           entity_results ← run_find driver entity_name;
           oconcat_map
             (fun entity =>
                neighborhood_results ←
                  run_neighborhood driver (node_id entity)
                    (max_results `div` Z.of_nat (length (entities_mentioned query)));
                mret (map triple_to_result neighborhood_results))
             entity_results)
        (entities_mentioned query)
  | [] =>
      session driver;;
      general_results ← run_general driver (q_text query) max_results;
      mret (map triple_to_result general_results)
  end.

Definition _graph_retrieval (query : RetrievalQuery) (max_results : Z)
  : M (list RetrievalResult) :=
  match neo4j_driver tools with
  | None => append GraphSearchUnavailable;; mret []
  | Some driver =>
      append (GraphSearch (entities_mentioned query));;
      try_catch
        (results ← lift (graph_collect driver query max_results);
         append (GraphResults (length results));;
         mret (py_slice_to max_results results))
        (fun e => append (GraphSearchError e);; mret [])
  end.

(** A placeholder in the source: no filter is parsed or applied. *)
Definition _filter_retrieval (query : RetrievalQuery) (max_results : Z)
  : M (list RetrievalResult) :=
  append LogicalFilterStep;;
  let results : list RetrievalResult := [] in
  append (FilterResults (length results));;
  mret results.

Definition _hybrid_retrieval (query : RetrievalQuery) (max_results : Z)
  : M (list RetrievalResult) :=
  append HybridSearch;;
  vector_results ← _vector_retrieval query (max_results `div` 2);
  graph_results ← _graph_retrieval query (max_results `div` 2);
  let all_results := vector_results ++ graph_results in
  let unique_results := sort_by_score_desc (dedup all_results) in
  append (HybridCombination (length vector_results) (length graph_results)
            (length unique_results));;
  mret (py_slice_to max_results unique_results).

(** The test of [_adaptive_retrieval]:
    [len(initial_results) > 0 and np.mean([...]) > 0.7]. The literal [0.7]
    is the double next below 7/10 and no double lies between the two, so a
    double exceeds the one exactly when it exceeds the other. *)
Definition good_initial (initial_results : list RetrievalResult) : bool :=
  (0 <? length initial_results)%nat
  && Qltb (7 # 10) (np_mean tools (map score initial_results)).

Definition _adaptive_retrieval (query : RetrievalQuery) (max_results : Z)
  : M (list RetrievalResult) :=
  append AdaptiveSearch;;
  initial_results ← _vector_retrieval query (max_results `div` 3);
  all_results ←
    (if good_initial initial_results then
       graph_results ← _graph_retrieval query (max_results `div` 3);
       mret (initial_results ++ graph_results)
     else _hybrid_retrieval query max_results);
  append (AdaptiveDecision
            (match initial_results with
             | [] => 0%Q
             | _ => np_mean tools (map score initial_results)
             end)
            (length all_results));;
  mret (py_slice_to max_results all_results).

Definition _calculate_confidence (results : list RetrievalResult) (query : RetrievalQuery) : Q :=
  match results with
  | [] => 0%Q
  | _ =>
      let avg_score := Qmean (map score results) in
      let count_factor := Qmin (inject_Z (Z.of_nat (length results)) / 10) 1 in
      let complexity_factor := (1 - complexity_score query * (3 # 10))%Q in
      let source_types : gset string := list_to_set (map source_type results) in
      let diversity_factor := (inject_Z (Z.of_nat (size source_types)) / 3)%Q in
      let confidence :=
        (avg_score * (5 # 10) + count_factor * (2 # 10)
         + complexity_factor * (2 # 10) + diversity_factor * (1 # 10))%Q in
      Qmin confidence 1
  end.

Definition run_strategy (strategy : RetrievalStrategy) (query : RetrievalQuery)
  (max_results : Z) : M (list RetrievalResult) :=
  match strategy with
  | VECTOR_ONLY => _vector_retrieval query max_results
  | GRAPH_ONLY => _graph_retrieval query max_results
  | LOGICAL_FILTER => _filter_retrieval query max_results
  | HYBRID => _hybrid_retrieval query max_results
  | ADAPTIVE => _adaptive_retrieval query max_results
  end.

End Orchestrator.

(** [retrieve]; [processing_time_ms] is wall-clock time and is left out.
    The analysis runs before the [try]; the dispatch and the confidence
    computation run inside it, and whatever the dispatched strategy raises
    reaches the [except]. The [else: raise ValueError] arm of the dispatch
    has no strategy left to reach it. [retrieve_with] is the method with the
    dispatch as an argument, [retrieve] the method itself. *)
Definition retrieve_with
  (dispatch : RetrievalStrategy -> RetrievalQuery -> Z -> M (list RetrievalResult))
  (fresh_id query_text : string)
  (strategy : option RetrievalStrategy) (max_results : Z) : outcome RetrievalResponse :=
  query ← QueryAnalyzer.analyze_query fresh_id query_text;
  let strategy := default (StrategySelector.select_strategy query) strategy in
  let reasoning_chain :=
    [QueryAnalysisStep (intent query) (complexity_score query)
       (entities_mentioned query) (strategy_value strategy)] in
  match
    (results ← dispatch strategy query max_results;
     mret (results, _calculate_confidence results query)) reasoning_chain
  with
  | (reasoning_chain, Returned (results, confidence)) =>
      Returned
        (mkRetrievalResponse (q_id query) (strategy_value strategy) results
           reasoning_chain (length results) confidence)
  | (reasoning_chain, Raised e) =>
      Returned
        (mkRetrievalResponse (q_id query) (strategy_value strategy) []
           (reasoning_chain ++ [ErrorStep e]) 0 0%Q)
  end.

Definition retrieve (tools : Tools) (fresh_id query_text : string)
  (strategy : option RetrievalStrategy) (max_results : Z) : outcome RetrievalResponse :=
  retrieve_with (run_strategy tools) fresh_id query_text strategy max_results.

(** ** ConversationMemory *)

Record ConversationMessage := mkConversationMessage {
  m_id : string;
  role : string;
  m_content : string;
  timestamp : Z
}.

(** [collections.deque] with a [maxlen]. *)
Record Deque := mkDeque {
  maxlen : nat;
  items : list ConversationMessage
}.

(** [d.append(x)]: a full deque drops its leftmost item; with
    [maxlen = 0] nothing is ever stored. *)
Definition deque_append (d : Deque) (x : ConversationMessage) : Deque :=
  mkDeque (maxlen d)
    (if (length (items d) <? maxlen d)%nat then items d ++ [x]
     else drop 1 (items d ++ [x])).

(** [deque(maxlen=n)]; a negative [n] raises [ValueError]. *)
Definition deque_new (n : Z) : outcome Deque :=
  if n <? 0 then Raised "maxlen must be non-negative"
  else Returned (mkDeque (Z.to_nat n) []).

Record Metadata := mkMetadata {
  created_at : Z;
  last_updated : Z;
  message_count : Z
}.

Record ConversationMemory := mkConversationMemory {
  max_messages : Z;
  context_window : Z;
  conversations : gmap string Deque;
  conversation_metadata : gmap string Metadata
}.

(** [ConversationMemory(max_messages, context_window)]; the defaults are
    20 and 6. *)
Definition new_memory (max_messages context_window : Z) : ConversationMemory :=
  mkConversationMemory max_messages context_window ∅ ∅.
Definition default_memory : ConversationMemory := new_memory 20 6.

(** [add_message]; [now] is [datetime.now()]. A subscript on a missing key
    raises [KeyError]. *)
Definition add_message (mem : ConversationMemory) (conversation_id : string)
  (message : ConversationMessage) (now : Z) : outcome ConversationMemory :=
  mem ←
    match conversations mem !! conversation_id with
    | Some _ => Returned mem
    | None =>
        d ← deque_new (max_messages mem);
        mret (mkConversationMemory (max_messages mem) (context_window mem)
                (<[conversation_id := d]> (conversations mem))
                (<[conversation_id := mkMetadata now now 0]> (conversation_metadata mem)))
    end;
  match conversations mem !! conversation_id, conversation_metadata mem !! conversation_id with
  | Some d, Some md =>
      Returned
        (mkConversationMemory (max_messages mem) (context_window mem)
           (<[conversation_id := deque_append d message]> (conversations mem))
           (<[conversation_id := mkMetadata (created_at md) now (message_count md + 1)]>
              (conversation_metadata mem)))
  | _, _ => Raised conversation_id
  end.

(** [l[s:]] for an integer [s] of either sign. *)
Definition py_slice_from {A} (s : Z) (l : list A) : list A :=
  if 0 <=? s then drop (Z.to_nat s) l
  else drop (Z.to_nat (Z.of_nat (length l) + s)) l.

Definition get_context (mem : ConversationMemory) (conversation_id : string)
  : list ConversationMessage :=
  match conversations mem !! conversation_id with
  | None => []
  | Some d => py_slice_from (- context_window mem) (items d)
  end.

(** [clear_conversation] of the reasoning stream, on its memory. *)
Definition clear_conversation (mem : ConversationMemory) (conversation_id : string)
  : outcome (ConversationMemory * bool) :=
  match conversations mem !! conversation_id with
  | Some _ =>
      match conversation_metadata mem !! conversation_id with
      | Some _ =>
          Returned
            (mkConversationMemory (max_messages mem) (context_window mem)
               (delete conversation_id (conversations mem))
               (delete conversation_id (conversation_metadata mem)), true)
      | None => Raised conversation_id
      end
  | None => Returned (mem, false)
  end.

(** A run of [add_message] calls, to any conversations in any order: each
    entry is the conversation id, the message and the time of the call. *)
Definition AddCall : Type := string * ConversationMessage * Z.

Fixpoint run_adds (mem : ConversationMemory) (calls : list AddCall)
  : outcome ConversationMemory :=
  match calls with
  | [] => Returned mem
  | (conversation_id, message, now) :: rest =>
      mem ← add_message mem conversation_id message now;
      run_adds mem rest
  end.

(** The messages a run of calls adds to one conversation, in call order. *)
Definition added_to (conversation_id : string) (calls : list AddCall)
  : list ConversationMessage :=
  omap (fun c : AddCall => if decide (c.1.1 = conversation_id) then Some c.1.2 else None)
       calls.

(** The [n] most recent entries of [l], oldest first. *)
Definition most_recent {A} (n : nat) (l : list A) : list A :=
  drop (length l - n) l.

(** The messages held for a conversation, and its [message_count]. *)
Definition buffer (mem : ConversationMemory) (conversation_id : string)
  : option (list ConversationMessage) :=
  items <$> conversations mem !! conversation_id.
Definition count_of (mem : ConversationMemory) (conversation_id : string) : option Z :=
  message_count <$> conversation_metadata mem !! conversation_id.

(** ** ReasoningEngine and EnhancedReasoningStream *)

Record ReasoningStep := mkReasoningStep {
  step_type : string;
  description : string;
  confidence : Q
}.

Record Evidence := mkEvidence {
  e_content : string;
  e_score : Q;
  e_source_type : string
}.

Record RAGResponse := mkRAGResponse {
  response_id : string;
  rag_query : string;
  answer : string;
  supporting_evidence : list Evidence;
  reasoning_steps : list ReasoningStep;
  rag_confidence_score : Q;
  sources_used : list string;
  conversation_id : string
}.

(** The language-model client, by the attribute the source looks for. *)
Inductive LLMClient :=
  | ChatClient (create : string -> outcome string)
  | GenerateClient (generate : string -> outcome string)
  | OtherClient.

Definition nl : string := String (ascii_of_nat 10) EmptyString.

(** [sep.join(parts)] *)
Fixpoint join (sep : string) (parts : list string) : string :=
  match parts with
  | [] => ""
  | [x] => x
  | x :: r => x +:+ sep +:+ join sep r
  end.

(** [_summarize_retrieval_results], as [process_query] calls it: on the
    orchestrator's [RetrievalResult] objects. The membership test
    ["source_type" in result] of the loop body raises [TypeError] on such
    an object, so only the empty list gets through. The value returned is
    the [avg_confidence] entry. *)
Definition _summarize_retrieval_results (results : list RetrievalResult) : outcome Q :=
  match results with
  | [] => Returned 0%Q
  | _ :: _ => Raised "argument of type 'RetrievalResult' is not iterable"
  end.

(** [_synthesize_evidence], likewise: [result.get] raises
    [AttributeError] on the first result. The value returned is the
    [synthesis_confidence] entry. *)
Definition _synthesize_evidence (results : list RetrievalResult) : outcome Q :=
  match results with
  | [] => Returned (Qmin (7 # 10) 1)
  | _ :: _ => Raised "'RetrievalResult' object has no attribute 'get'"
  end.

Definition generate_reasoning_chain (query : string) (context : list ConversationMessage)
  (retrieval_results : list RetrievalResult) : outcome (list ReasoningStep) :=
  (* [_analyze_query] returns without raising; what it returns goes to the
     [input_data] and [output_data] fields only, which are left out. *)
  let step1 :=
    mkReasoningStep "query_analysis"
      "Analyzed user query and conversation context" (9 # 10) in
  avg_confidence ← _summarize_retrieval_results retrieval_results;
  let step2 :=
    mkReasoningStep "information_retrieval"
      "Retrieved relevant information from knowledge base" avg_confidence in
  synthesis_confidence ← _synthesize_evidence retrieval_results;
  let step3 :=
    mkReasoningStep "evidence_synthesis"
      "Synthesized evidence from multiple sources" synthesis_confidence in
  mret [step1; step2; step3].

Section ReasoningStream.

Variable tools : Tools.
Variable llm_client : option LLMClient.
(** [f"{x:.2f}"] and [len(l)] rendered in decimal. *)
Variable fmt2 : Q -> string.
Variable fmt_nat : nat -> string.

Definition _generate_fallback_answer (query : string)
  (retrieval_results : list RetrievalResult) : string :=
  match retrieval_results with
  | [] =>
      "I couldn't find specific information to answer your query. Please try rephrasing your question or providing more context."
  | top_result :: _ =>
      let answer := "Based on the available information, here's what I found:" +:+ nl +:+ nl in
      let answer := answer +:+ content top_result +:+ nl +:+ nl in
      let answer :=
        if (1 <? length retrieval_results)%nat then
          answer +:+ "Additional relevant information:" +:+ nl
          +:+ join "" (map (fun result => "• " +:+ content result +:+ nl)
                         (take 2 (drop 1 retrieval_results)))
        else answer in
      answer +:+ nl +:+ "(This response is based on "
      +:+ fmt_nat (length retrieval_results)
      +:+ " sources with an average confidence of "
      +:+ fmt2 (Qsum (map score retrieval_results)
                / inject_Z (Z.of_nat (length retrieval_results)))
      +:+ ")"
  end.

Definition build_prompt (query : string) (retrieval_results : list RetrievalResult)
  (context : list ConversationMessage) : string :=
  let context_text :=
    join nl (map (fun msg => role msg +:+ ": " +:+ m_content msg)
               (py_slice_from (-3) context)) in
  let retrieved_info :=
    join nl (map (fun result =>
                    "- " +:+ content result +:+ " (confidence: "
                    +:+ fmt2 (score result) +:+ ")")
               (take 5 retrieval_results)) in
  nl +:+ "Based on the following context and retrieved information, please provide a comprehensive answer to the user's query."
  +:+ nl +:+ nl +:+ "Conversation Context:" +:+ nl +:+ context_text
  +:+ nl +:+ nl +:+ "Retrieved Information:" +:+ nl +:+ retrieved_info
  +:+ nl +:+ nl +:+ "User Query: " +:+ query
  +:+ nl +:+ nl +:+ "Please provide a helpful, accurate, and well-structured response. If the retrieved information doesn't fully answer the query, acknowledge the limitations and provide what information is available."
  +:+ nl.

Definition _generate_llm_answer (client : LLMClient) (query : string)
  (retrieval_results : list RetrievalResult) (context : list ConversationMessage)
  : string :=
  let prompt := build_prompt query retrieval_results context in
  let attempt :=
    match client with
    | ChatClient create => create prompt
    | GenerateClient generate => generate prompt
    | OtherClient => Returned (_generate_fallback_answer query retrieval_results)
    end in
  match attempt with
  | Returned text => text
  | Raised _ => _generate_fallback_answer query retrieval_results
  end.

Definition _generate_answer (query : string) (retrieval_results : list RetrievalResult)
  (context : list ConversationMessage) : string :=
  match llm_client with
  | Some client => _generate_llm_answer client query retrieval_results context
  | None => _generate_fallback_answer query retrieval_results
  end.

(** The values [process_query] draws from [uuid.uuid4()], in call order
    ([uuid_conversation] is drawn only when no conversation id is given),
    and the one [retrieve] draws. *)
Record Uuids := mkUuids {
  uuid_conversation : string;
  uuid_response : string;
  uuid_user_message : string;
  uuid_query : string
}.

(** The body of the [try] of [process_query]. *)
Definition process_query_body (mem : ConversationMemory) (query conversation_id : string)
  (context : list ConversationMessage) (ids : Uuids) (now : Z)
  : outcome (ConversationMemory * RAGResponse) :=
  retrieval_response ← retrieve tools (uuid_query ids) query (Some ADAPTIVE) 10;
  reasoning_steps ← generate_reasoning_chain query context (results retrieval_response);
  let answer := _generate_answer query (results retrieval_response) context in
  let supporting_evidence :=
    map (fun result => mkEvidence (content result) (score result) (source_type result))
        (results retrieval_response) in
  let rag_response :=
    mkRAGResponse (uuid_response ids) query answer supporting_evidence reasoning_steps
      (confidence_score retrieval_response)
      (elements (list_to_set (map source_type (results retrieval_response)) : gset string))
      conversation_id in
  let assistant_message := mkConversationMessage (uuid_response ids) "assistant" answer now in
  mem ← add_message mem conversation_id assistant_message now;
  mret (mem, rag_response).

Definition error_answer (e : Exn) : string :=
  "I apologize, but I encountered an error while processing your query: " +:+ e.

(** [process_query]; the memory is the stream's [conversation_memory],
    returned as it is left by the call. *)
Definition process_query (mem : ConversationMemory) (query : string)
  (conversation_id : option string) (ids : Uuids) (now : Z)
  : outcome (ConversationMemory * RAGResponse) :=
  let conversation_id := default (uuid_conversation ids) conversation_id in
  let user_message := mkConversationMessage (uuid_user_message ids) "user" query now in
  mem ← add_message mem conversation_id user_message now;
  let context := get_context mem conversation_id in
  match process_query_body mem query conversation_id context ids now with
  | Returned r => Returned r
  | Raised e =>
      Returned
        (mem,
         mkRAGResponse (uuid_response ids) query (error_answer e) [] [] 0%Q []
           conversation_id)
  end.

End ReasoningStream.

(** ** LogicalFilterTool *)

Module LogicalFilterTool.

Inductive FilterOperator :=
  | EQUALS | NOT_EQUALS | GREATER_THAN | LESS_THAN | GREATER_EQUAL
  | LESS_EQUAL | CONTAINS | IN | NOT_IN.

(** The [value] of a condition, by the three cases the source tells
    apart; a list or tuple carries its [str(list(value))], any other value
    its [str(value)]. *)
Inductive FilterValue :=
  | VStr (s : string)
  | VSeq (rendered : string)
  | VOther (rendered : string).

Record FilterCondition := mkFilterCondition {
  field : string;
  operator : FilterOperator;
  value : FilterValue
}.

(** A record of the backing store, as [graph_db.query] returns it. *)
Record StoreRecord := mkStoreRecord {
  rec_id : string;
  rec_content : string
}.

(** [str(n)] for an integer. *)
Definition str_int (n : Z) : string := NilZero.string_of_int (Z.to_int n).

Definition _condition_to_cypher (condition : FilterCondition) : string :=
  let field := "n." +:+ field condition in
  let formatted_value :=
    match value condition with
    | VStr s => "'" +:+ s +:+ "'"
    | VSeq rendered => rendered
    | VOther rendered => rendered
    end in
  match operator condition with
  | EQUALS => field +:+ " = " +:+ formatted_value
  | NOT_EQUALS => field +:+ " <> " +:+ formatted_value
  | GREATER_THAN => field +:+ " > " +:+ formatted_value
  | LESS_THAN => field +:+ " < " +:+ formatted_value
  | GREATER_EQUAL => field +:+ " >= " +:+ formatted_value
  | LESS_EQUAL => field +:+ " <= " +:+ formatted_value
  | CONTAINS => field +:+ " CONTAINS " +:+ formatted_value
  | IN => field +:+ " IN " +:+ formatted_value
  | NOT_IN => "NOT " +:+ field +:+ " IN " +:+ formatted_value
  end.

Definition _build_filter_query (filters : list FilterCondition) (limit : Z) : string :=
  let query_parts := ["MATCH (n)"] in
  let query_parts :=
    match filters with
    | [] => query_parts
    | _ :: _ =>
        let where_conditions := map _condition_to_cypher filters in
        let where_clause := join " AND " where_conditions in
        query_parts ++ ["WHERE " +:+ where_clause]
    end in
  let query_parts := query_parts ++ ["RETURN n LIMIT " +:+ str_int limit] in
  join nl query_parts.

(** [search]; an exception of the store is logged and raised again. *)
Definition search (graph_db : option (string -> outcome (list StoreRecord)))
  (query : string) (filters : list FilterCondition) (limit : Z)
  : outcome (list StoreRecord) :=
  let filter_query := _build_filter_query filters limit in
  match graph_db with
  | Some db => db filter_query
  | None => Returned []
  end.

End LogicalFilterTool.

(** What a filter-only retrieval returns if it goes through the filter
    tool as the design describes: the records matching the conditions,
    each scored 1.0 and tagged [filter]. *)
Definition filter_results_as_described
  (graph_db : option (string -> outcome (list LogicalFilterTool.StoreRecord)))
  (query_text : string) (filters : list LogicalFilterTool.FilterCondition)
  (max_results : Z) : outcome (list RetrievalResult) :=
  records ← LogicalFilterTool.search graph_db query_text filters max_results;
  mret (map (fun r => mkRetrievalResult (LogicalFilterTool.rec_id r)
                        (LogicalFilterTool.rec_content r) 1%Q "filter")
            records).

(** ** Definitions used in the statements *)

(** The two scenario queries. *)
Definition who_works : string := "Who works for Apple Inc.?".
Definition how_related : string :=
  "How are Apple Inc. and Steve Jobs related, and what companies are they connected to?".

(** What a memory of capacity [cap] holds after a run of calls from the
    empty state: per conversation, the [cap] most recent messages added to
    it and the number of messages ever added to it. *)
Definition holds (cap : nat) (mem : ConversationMemory) (calls : list AddCall) : Prop :=
  max_messages mem = Z.of_nat cap
  ∧ ∀ cid,
      (added_to cid calls = [] ->
         conversations mem !! cid = None ∧ conversation_metadata mem !! cid = None)
      ∧ (added_to cid calls ≠ [] ->
         conversations mem !! cid = Some (mkDeque cap (most_recent cap (added_to cid calls)))
         ∧ ∃ md, conversation_metadata mem !! cid = Some md
                 ∧ message_count md = Z.of_nat (length (added_to cid calls))).

(** Twenty-five messages to one conversation, with a message to another
    conversation after every one of them. *)
Definition demo_calls : list AddCall :=
  flat_map
    (fun n : nat =>
       [("c1"%string, mkConversationMessage "m" "user" "hello" (Z.of_nat n), Z.of_nat n);
        ("c2"%string, mkConversationMessage "m" "user" "other" (Z.of_nat n), Z.of_nat n)])
    (seq 0 25).

(** What a step of the orchestrator returns and what it appends to the
    chain, read off a run on the empty chain. *)
Definition value_of (m : M (list RetrievalResult)) : list RetrievalResult :=
  match (m []).2 with
  | Returned r => r
  | Raised _ => []
  end.
Definition trace_of {A} (m : M A) : list ChainStep := (m []).1.

Definition vector_pass (tools : Tools) (q : RetrievalQuery) (n : Z) : list RetrievalResult :=
  value_of (_vector_retrieval tools q n).
Definition graph_pass (tools : Tools) (q : RetrievalQuery) (n : Z) : list RetrievalResult :=
  value_of (_graph_retrieval tools q n).
Definition hybrid_pass (tools : Tools) (q : RetrievalQuery) (n : Z) : list RetrievalResult :=
  value_of (_hybrid_retrieval tools q n).

(** The vector tool, resp. the graph tool, is configured and raises [e]
    when asked for [n] results. *)
Definition vector_fails (tools : Tools) (q : RetrievalQuery) (n : Z) (e : Exn) : Prop :=
  ∃ client, chroma_client tools = Some client
            ∧ vector_search_call tools client q n = Raised e.
Definition graph_fails (tools : Tools) (q : RetrievalQuery) (n : Z) (e : Exn) : Prop :=
  ∃ driver, neo4j_driver tools = Some driver ∧ graph_collect driver q n = Raised e.

(** The tool is not configured, or raises whatever number of results is
    asked for. *)
Definition vector_down (tools : Tools) (q : RetrievalQuery) : Prop :=
  chroma_client tools = None ∨ ∀ n, ∃ e, vector_fails tools q n e.
Definition graph_down (tools : Tools) (q : RetrievalQuery) : Prop :=
  neo4j_driver tools = None ∨ ∀ n, ∃ e, graph_fails tools q n e.

(** Ranked descending by score. *)
Definition descending (l : list RetrievalResult) : Prop :=
  StronglySorted (fun a b => (score b <= score a)%Q) l.

(** The memories [add_message] and [clear_conversation] produce: the
    capacity is not negative and every conversation has its metadata. *)
Definition mem_wf (mem : ConversationMemory) : Prop :=
  0 <= max_messages mem
  ∧ ∀ cid, is_Some (conversations mem !! cid) -> is_Some (conversation_metadata mem !! cid).

(** The memories a stream gets to: it starts with the empty memory of a
    capacity that is not negative, and every later state is what an
    [add_message], a [clear_conversation] or a [process_query] returned on
    an earlier one. *)
Inductive reachable : ConversationMemory -> Prop :=
  | reach_new cap w : 0 <= cap -> reachable (new_memory cap w)
  | reach_add mem cid message now mem' :
      reachable mem -> add_message mem cid message now = Returned mem' -> reachable mem'
  | reach_clear mem cid mem' b :
      reachable mem -> clear_conversation mem cid = Returned (mem', b) -> reachable mem'
  | reach_process tools llm_client fmt2 fmt_nat mem query conversation_id ids now mem' r :
      reachable mem ->
      process_query tools llm_client fmt2 fmt_nat mem query conversation_id ids now
      = Returned (mem', r) ->
      reachable mem'.

(** What the adaptive strategy keeps before the final truncation. *)
Definition adaptive_all (tools : Tools) (q : RetrievalQuery) (n : Z) : list RetrievalResult :=
  if good_initial tools (vector_pass tools q (n `div` 3))
  then vector_pass tools q (n `div` 3) ++ graph_pass tools q (n `div` 3)
  else hybrid_pass tools q n.

(** Collaborators for the worked cases: an index whose three hits have
    similarity 0.9, 0.85 and 0.8, a graph with one edge of weight 0.9, an
    index whose single hit lies at distance 3, collaborators that always
    raise, and a store with one record. Their mean is the exact one: the
    only list it is asked about, 0.9, 0.85 and 0.8, has a mean of 0.85
    however it is rounded. *)
Definition demo_hits : list ChromaHit :=
  [mkChromaHit "d1" "Apple designs phones" (1 # 10);
   mkChromaHit "d2" "Apple sells laptops" (15 # 100);
   mkChromaHit "d3" "Apple runs stores" (2 # 10)].
Definition demo_client : ChromaClient :=
  mkChromaClient (fun _ _ => Returned demo_hits) (fun _ _ => Returned demo_hits).
Definition demo_triple : Triple :=
  (mkNode "n1" "Apple", mkRelation "EMPLOYS" (Some (9 # 10)), mkNode "n2" "Tim Cook").
Definition demo_driver : Neo4jDriver :=
  mkNeo4jDriver (Returned tt) (fun _ => Returned [mkNode "n1" "Apple"])
    (fun _ _ => Returned [demo_triple]) (fun _ _ => Returned [demo_triple]).
Definition demo_tools : Tools := mkTools (Some demo_client) (Some demo_driver) None Qmean.

Definition far_client : ChromaClient :=
  mkChromaClient (fun _ _ => Returned [mkChromaHit "d9" "Pear orchards" 3])
    (fun _ _ => Returned [mkChromaHit "d9" "Pear orchards" 3]).
Definition far_tools : Tools := mkTools (Some far_client) None None Qmean.

Definition broken_client : ChromaClient :=
  mkChromaClient (fun _ _ => Raised "connection refused")
    (fun _ _ => Raised "connection refused").
Definition broken_driver : Neo4jDriver :=
  mkNeo4jDriver (Raised "service unavailable") (fun _ => Raised "service unavailable")
    (fun _ _ => Raised "service unavailable") (fun _ _ => Raised "service unavailable").
Definition broken_tools : Tools := mkTools (Some broken_client) (Some broken_driver) None Qmean.
Definition vector_broken_tools : Tools :=
  mkTools (Some broken_client) (Some demo_driver) None Qmean.

Definition demo_store : string -> outcome (list LogicalFilterTool.StoreRecord) :=
  fun _ => Returned [LogicalFilterTool.mkStoreRecord "r1" "Apple Inc."].

Definition demo_ids : Uuids := mkUuids "conv-1" "resp-1" "msg-1" "query-1".
Definition no_fmt2 : Q -> string := fun _ => "0.00".
Definition no_fmt_nat : nat -> string := fun _ => "0".

(** A word that [_extract_entities] keeps: it starts with an upper-case
    letter and has more than two characters. *)
Definition entity_like (word : string) : Prop :=
  PyStr.first_isupper word = Some true ∧ (2 < String.length word)%nat.

#[global] Instance entity_like_dec word : Decision (entity_like word).
Proof. unfold entity_like. apply _. Defined.

(** The identity of a result for deduplication:
    [result.content.lower().strip()]. *)
Definition content_key (result : RetrievalResult) : string :=
  strip (PyStr.lower (content result)).

(** The content keys of a result list. *)
Definition keys_of (l : list RetrievalResult) : gset string :=
  list_to_set (map content_key l).

(** Results of one score class. *)
Definition same_score (c : Q) (result : RetrievalResult) : Prop :=
  Qeq_bool (score result) c = true.

#[global] Instance same_score_dec c result : Decision (same_score c result).
Proof. unfold same_score. apply _. Defined.

(** A result made from an index hit, resp. from a graph triple. *)
Definition from_hit (result : RetrievalResult) : Prop :=
  ∃ hit, result = hit_to_result hit.
Definition from_triple (result : RetrievalResult) : Prop :=
  ∃ triple, result = triple_to_result triple.

(** ** ReasoningEngine on dictionaries, and the event stream *)

(** A retrieval result as the reasoning engine's annotations have it: a
    dictionary, of which [source_type] and [score] are read, each of which
    may be missing. *)
Record ResultDict := mkResultDict {
  d_source_type : option string;
  d_score : option Q
}.

(** [result.get("source_type", "unknown")] *)
Definition group_key (result : ResultDict) : string :=
  default "unknown" (d_source_type result).

(** The grouping loop of [_synthesize_evidence]: [grouped_results] maps a
    source type to the results that have it, in the order they came. *)
Definition grouped_results (retrieval_results : list ResultDict)
  : gmap string (list ResultDict) :=
  foldl (fun grouped_results result =>
           let source_type := group_key result in
           let grouped_results :=
             match grouped_results !! source_type with
             | None => <[source_type := []]> grouped_results
             | Some _ => grouped_results
             end in
           <[source_type := default [] (grouped_results !! source_type) ++ [result]]>
             grouped_results)
        ∅ retrieval_results.

(** The [evidence_groups] entry of what [_synthesize_evidence] returns:
    [{k: len(v) for k, v in grouped_results.items()}]. *)
Definition evidence_groups (retrieval_results : list ResultDict) : gmap string nat :=
  length <$> grouped_results retrieval_results.

(** [len(grouped_results) > 1], the test for the confidence boost of
    [_synthesize_evidence]. *)
Definition several_source_types (retrieval_results : list ResultDict) : bool :=
  (1 <? size (grouped_results retrieval_results))%nat.

(** The sum of the values of a count dictionary. *)
Definition total_count (groups : gmap string nat) : nat :=
  map_fold (fun _ n acc => (n + acc)%nat) 0%nat groups.

(** An event of [stream_response]. *)
Inductive StreamEvent :=
  | EvStatus (message : string) (conversation_id : option string)
  | EvRetrievalComplete (results_count : nat) (confidence : Q)
  | EvReasoningComplete (steps_count : nat)
  | EvComplete (answer : string) (supporting_evidence : list RetrievalResult)
      (reasoning_steps : list ReasoningStep) (conversation_id : string)
  | EvError (message : Exn) (conversation_id : string).

Definition event_type (ev : StreamEvent) : string :=
  match ev with
  | EvStatus _ _ => "status"
  | EvRetrievalComplete _ _ => "retrieval_complete"
  | EvReasoningComplete _ => "reasoning_complete"
  | EvComplete _ _ _ _ => "complete"
  | EvError _ _ => "error"
  end.

Section StreamResponse.

Variable tools : Tools.
Variable llm_client : option LLMClient.
Variable fmt2 : Q -> string.
Variable fmt_nat : nat -> string.

(** What follows the retrieval inside the [try] of [stream_response]. *)
Definition stream_after_retrieval (mem : ConversationMemory) (query conversation_id : string)
  (retrieval_response : RetrievalResponse) : list StreamEvent :=
  [EvRetrievalComplete (length (results retrieval_response))
     (confidence_score retrieval_response);
   EvStatus "Generating reasoning chain..." None]
  ++ let context := get_context mem conversation_id in
     match generate_reasoning_chain query context (results retrieval_response) with
     | Raised e => [EvError e conversation_id]
     | Returned reasoning_steps =>
         [EvReasoningComplete (length reasoning_steps);
          EvStatus "Generating response..." None;
          EvComplete
            (_generate_answer llm_client fmt2 fmt_nat query
               (results retrieval_response) context)
            (results retrieval_response) reasoning_steps conversation_id]
     end.

(** [stream_response], drained to its end: the events in the order they
    are yielded. The memory is read, never written. *)
Definition stream_response (mem : ConversationMemory) (query : string)
  (conversation_id : option string) (ids : Uuids) : list StreamEvent :=
  let conversation_id := default (uuid_conversation ids) conversation_id in
  [EvStatus "Processing query..." (Some conversation_id);
   EvStatus "Retrieving relevant information..." None]
  ++ match retrieve tools (uuid_query ids) query (Some ADAPTIVE) 10 with
     | Raised e => [EvError e conversation_id]
     | Returned retrieval_response =>
         stream_after_retrieval mem query conversation_id retrieval_response
     end.

End StreamResponse.

(** A graph that answers for every entity but "Jobs", and a query that
    mentions two entities. *)
Definition flaky_driver : Neo4jDriver :=
  mkNeo4jDriver (Returned tt)
    (fun entity_name =>
       if String.eqb entity_name "Jobs" then Raised "query timed out"
       else Returned [mkNode "n1" "Apple"])
    (fun _ _ => Returned [demo_triple]) (fun _ _ => Returned [demo_triple]).
Definition flaky_tools : Tools := mkTools None (Some flaky_driver) None Qmean.
Definition two_entity_query : RetrievalQuery :=
  mkRetrievalQuery "q" "Apple and Jobs" "general_search" ["Apple"; "Jobs"] "targeted" (1 # 2).

(** The orchestrator with a graph and no vector index. *)
Definition graph_only_tools : Tools := mkTools None (Some demo_driver) None Qmean.

(** * Properties *)

(** ** Rationals *)

Lemma Qltb_lt x y : Qltb x y = true <-> (x < y)%Q.
Proof.
  unfold Qltb. rewrite negb_true_iff. split.
  - intros H. apply Qnot_le_lt. intros Hle.
    apply Qle_bool_iff in Hle. congruence.
  - intros H. destruct (Qle_bool y x) eqn:E; [|done].
    apply Qle_bool_iff in E. exfalso. revert E. by apply Qlt_not_le.
Qed.

Lemma Qltb_ge x y : Qltb x y = false <-> (y <= x)%Q.
Proof.
  unfold Qltb. rewrite negb_false_iff. apply Qle_bool_iff.
Qed.


Lemma Qltb_proper x x' y y' : (x == x')%Q -> (y == y')%Q -> Qltb x y = Qltb x' y'.
Proof.
  intros Hx Hy. destruct (Qltb x' y') eqn:E.
  - apply Qltb_lt. apply Qltb_lt in E. by rewrite Hx, Hy.
  - apply Qltb_ge. apply Qltb_ge in E. by rewrite Hx, Hy.
Qed.

(** ** Query analysis never raises *)

Section Analysis.

Import QueryAnalyzer.

Lemma rev_app_nonempty s1 s2 : s2 ≠ EmptyString -> String.rev_app s1 s2 ≠ EmptyString.
Proof.
  revert s2. induction s1 as [|c s1 IH]; intros s2 H; simpl; [done|].
  by apply IH.
Qed.

Lemma flush_nonempty cur acc :
  Forall (fun w => w ≠ EmptyString) acc ->
  Forall (fun w => w ≠ EmptyString) (PyStr.flush cur acc).
Proof.
  intros H. destruct cur as [|c cur]; simpl; [done|].
  constructor; [|done]. unfold String.rev. simpl. by apply rev_app_nonempty.
Qed.

Lemma split_go_nonempty s cur acc :
  Forall (fun w => w ≠ EmptyString) acc ->
  Forall (fun w => w ≠ EmptyString) (PyStr.split_go s cur acc).
Proof.
  revert cur acc. induction s as [|c s IH]; intros cur acc H; simpl.
  - apply Forall_rev. by apply flush_nonempty.
  - destruct (PyStr.is_space_ascii c); apply IH; [by apply flush_nonempty | done].
Qed.

Lemma extract_loop_returns words :
  Forall (fun w => w ≠ EmptyString) words -> ∃ entities, extract_loop words = Returned entities.
Proof.
  induction 1 as [|w words Hw _ [entities IH]]; simpl; [by eexists|].
  destruct w as [|c w]; [done|]. simpl. rewrite IH. by eexists.
Qed.

Lemma extract_entities_returns query_text :
  ∃ entities, _extract_entities query_text = Returned entities.
Proof. apply extract_loop_returns, split_go_nonempty. constructor. Qed.

Lemma analyze_query_returns fresh_id query_text :
  ∃ entities,
    _extract_entities query_text = Returned entities
    ∧ analyze_query fresh_id query_text
      = Returned
          (mkRetrievalQuery fresh_id query_text
             (_determine_intent (PyStr.lower query_text)) entities
             (_determine_query_type (PyStr.lower query_text))
             (_calculate_complexity query_text entities)).
Proof.
  destruct (extract_entities_returns query_text) as [entities H].
  exists entities. split; [done|]. unfold analyze_query. by rewrite H.
Qed.

Lemma complexity_le_1 query_text entities :
  (_calculate_complexity query_text entities <= 1)%Q.
Proof. unfold _calculate_complexity. apply Q.le_min_r. Qed.

Lemma analyze_query_complexity fresh_id query_text q :
  analyze_query fresh_id query_text = Returned q -> (complexity_score q <= 1)%Q.
Proof.
  destruct (analyze_query_returns fresh_id query_text) as (entities & _ & ->).
  intros [= <-]. apply complexity_le_1.
Qed.

End Analysis.

(** ** Strategy selection *)

Section Selection.

Import QueryAnalyzer StrategySelector.

(** C2. Strategy selection depends on the intent and the complexity score
    only, with the complexity thresholds tested first: a score below 0.3
    gives vector-only whatever the intent, a score above 0.7 gives
    adaptive, and in between the intent decides (entity_lookup gives
    vector-only, relationship_exploration graph-only, filtered_search
    filter-only, general_search hybrid). *)
Theorem select_strategy_rule_table (q : RetrievalQuery) :
  ((complexity_score q < 3 # 10)%Q -> select_strategy q = VECTOR_ONLY)
  ∧ ((7 # 10 < complexity_score q)%Q -> select_strategy q = ADAPTIVE)
  ∧ ((3 # 10 <= complexity_score q)%Q -> (complexity_score q <= 7 # 10)%Q ->
       (intent q = "entity_lookup" -> select_strategy q = VECTOR_ONLY)
       ∧ (intent q = "relationship_exploration" -> select_strategy q = GRAPH_ONLY)
       ∧ (intent q = "filtered_search" -> select_strategy q = LOGICAL_FILTER)
       ∧ (intent q = "general_search" -> select_strategy q = HYBRID))
  ∧ (∀ q', intent q' = intent q -> (complexity_score q' == complexity_score q)%Q ->
       select_strategy q' = select_strategy q).
Proof.
  unfold select_strategy. repeat split.
  - intros H. apply Qltb_lt in H. by rewrite H.
  - intros H.
    assert (Qltb (complexity_score q) (3 # 10) = false) as ->.
    { apply Qltb_ge. apply Qlt_le_weak. eapply Qlt_trans; [|exact H]. reflexivity. }
    apply Qltb_lt in H. by rewrite H.
  - apply Qltb_ge in H. apply Qltb_ge in H0. rewrite H, H0. intros ->. reflexivity.
  - apply Qltb_ge in H. apply Qltb_ge in H0. rewrite H, H0. intros ->. reflexivity.
  - apply Qltb_ge in H. apply Qltb_ge in H0. rewrite H, H0. intros ->. reflexivity.
  - apply Qltb_ge in H. apply Qltb_ge in H0. rewrite H, H0. intros ->. reflexivity.
  - intros q' Hi Hc. rewrite Hi.
    rewrite (Qltb_proper _ (complexity_score q) _ (3 # 10) Hc (Qeq_refl _)).
    by rewrite (Qltb_proper (7 # 10) (7 # 10) _ (complexity_score q) (Qeq_refl _) Hc).
Qed.

Lemma select_strategy_rule_table_witness :
  select_strategy (mkRetrievalQuery "q" "find it" "filtered_search" [] "targeted" (1 # 4))
    = VECTOR_ONLY
  ∧ select_strategy (mkRetrievalQuery "q" "find it" "filtered_search" [] "targeted" (1 # 2))
    = LOGICAL_FILTER.
Proof.
  split.
  - exact (proj1 (select_strategy_rule_table
                    (mkRetrievalQuery "q" "find it" "filtered_search" [] "targeted" (1 # 4)))
             eq_refl).
  - refine (proj1 (proj2 (proj2 (proj1 (proj2 (proj2 (select_strategy_rule_table
              (mkRetrievalQuery "q" "find it" "filtered_search" [] "targeted" (1 # 2)))))
              _ _))) eq_refl); unfold Qle; simpl; lia.
Defined.

(** C7, as stated, fails: for the query "Who works for Apple Inc.?" the
    analyzer does not produce a complexity below 0.3 with vector-only
    selected. *)
Lemma who_works_not_simple :
  ¬ (∀ fresh_id, ∃ q,
       analyze_query fresh_id who_works = Returned q
       ∧ (complexity_score q < 3 # 10)%Q
       ∧ select_strategy q = VECTOR_ONLY).
Proof.
  intros H. destruct (H ""%string) as (q & Hq & Hc & _).
  vm_compute in Hq. injection Hq as <-. vm_compute in Hc. discriminate.
Qed.

(** C7, amended. For the query "Who works for Apple Inc.?" the analyzer
    finds three capitalized tokens (Who, Apple, Inc.?), the connective
    "or" inside "works" and "for", and the question word "who"; the
    complexity score is 0.125 + 0.3 + 0.2 + 0.2 = 0.825, above 0.7, and the
    selector chooses the adaptive strategy. *)
Theorem who_works_is_adaptive (fresh_id : string) :
  ∃ q,
    analyze_query fresh_id who_works = Returned q
    ∧ entities_mentioned q = ["Who"; "Apple"; "Inc.?"]
    ∧ intent q = "entity_lookup"
    ∧ (length_factor who_works == 1 # 8)%Q
    ∧ (entity_factor (entities_mentioned q) == 3 # 10)%Q
    ∧ (op_factor who_works == 2 # 10)%Q
    ∧ (question_factor who_works == 2 # 10)%Q
    ∧ (complexity_score q == 33 # 40)%Q
    ∧ (7 # 10 < complexity_score q)%Q
    ∧ select_strategy q = ADAPTIVE.
Proof.
  eexists. split; [reflexivity|]. by vm_compute.
Qed.

(** C8, as stated, fails: for the query about Apple Inc. and Steve Jobs
    the analyzer does not classify the intent as
    relationship_exploration. *)
Lemma how_related_not_relationship :
  ¬ (∀ fresh_id, ∃ q,
       analyze_query fresh_id how_related = Returned q
       ∧ intent q = "relationship_exploration"
       ∧ (3 # 10 < complexity_score q)%Q
       ∧ select_strategy q
         = (if Qltb (7 # 10) (complexity_score q) then ADAPTIVE else GRAPH_ONLY)).
Proof.
  intros H. destruct (H ""%string) as (q & Hq & Hi & _).
  vm_compute in Hq. injection Hq as <-. vm_compute in Hi. discriminate.
Qed.

(** C8, amended. For the query "How are Apple Inc. and Steve Jobs related,
    and what companies are they connected to?" the entity keywords are
    tested first and "what" is among them, so the intent is entity_lookup;
    the complexity score is 0.3 + 0.3 + 0.2 + 0.2 = 1.0, above 0.3 and
    above 0.7, and the selected strategy is adaptive. *)
Theorem how_related_is_adaptive (fresh_id : string) :
  ∃ q,
    analyze_query fresh_id how_related = Returned q
    ∧ any_in entity_keywords (PyStr.lower how_related) = true
    ∧ any_in relationship_keywords (PyStr.lower how_related) = true
    ∧ intent q = "entity_lookup"
    ∧ entities_mentioned q = ["How"; "Apple"; "Inc."; "Steve"; "Jobs"]
    ∧ (complexity_score q == 1)%Q
    ∧ (3 # 10 < complexity_score q)%Q
    ∧ (7 # 10 < complexity_score q)%Q
    ∧ select_strategy q = ADAPTIVE.
Proof.
  eexists. split; [reflexivity|]. by vm_compute.
Qed.

End Selection.

(** ** Conversation memory *)

Section Memory.

Lemma most_recent_length {A} (n : nat) (l : list A) :
  length (most_recent n l) = Nat.min n (length l).
Proof. unfold most_recent. rewrite length_drop. lia. Qed.

(** Appending to a deque that holds the [cap] most recent of [ms] leaves
    the [cap] most recent of [ms ++ [x]]. *)
Lemma deque_append_most_recent cap ms x :
  deque_append (mkDeque cap (most_recent cap ms)) x
  = mkDeque cap (most_recent cap (ms ++ [x])).
Proof.
  unfold deque_append. simpl. f_equal.
  rewrite most_recent_length. unfold most_recent. rewrite length_app. simpl.
  destruct (Nat.ltb_spec (Nat.min cap (length ms)) cap) as [Hlt|Hge].
  - replace (length ms - cap)%nat with 0%nat by lia.
    replace (length ms + 1 - cap)%nat with 0%nat by lia. done.
  - rewrite <- drop_app_le by lia. rewrite drop_drop. f_equal. lia.
Qed.

Lemma added_to_snoc cid calls cid0 message now :
  added_to cid (calls ++ [(cid0, message, now)])
  = added_to cid calls ++ (if decide (cid0 = cid) then [message] else []).
Proof.
  unfold added_to. rewrite omap_app. simpl. by destruct (decide (cid0 = cid)).
Qed.

Lemma run_adds_snoc mem calls c :
  run_adds mem (calls ++ [c])
  = (mem' ← run_adds mem calls; add_message mem' c.1.1 c.1.2 c.2).
Proof.
  revert mem. induction calls as [|[[cid0 m0] t0] calls IH]; intros mem; simpl.
  - destruct c as [[cid m] t]. simpl.
    unfold mbind, outcome_bind. simpl. by destruct (add_message mem cid m t).
  - unfold mbind, outcome_bind. simpl.
    destruct (add_message mem cid0 m0 t0) as [e|mem1]; simpl; [done|]. apply IH.
Qed.

Lemma add_message_holds cap mem calls cid0 message now :
  holds cap mem calls ->
  ∃ mem', add_message mem cid0 message now = Returned mem'
          ∧ holds cap mem' (calls ++ [(cid0, message, now)]).
Proof.
  intros [Hcap H].
  assert (∃ mem1 md1,
    match conversations mem !! cid0 with
    | Some _ => Returned mem
    | None =>
        d ← deque_new (max_messages mem);
        mret (mkConversationMemory (max_messages mem) (context_window mem)
                (<[cid0 := d]> (conversations mem))
                (<[cid0 := mkMetadata now now 0]> (conversation_metadata mem)))
    end = Returned mem1
    ∧ max_messages mem1 = Z.of_nat cap
    ∧ conversations mem1 !! cid0 = Some (mkDeque cap (most_recent cap (added_to cid0 calls)))
    ∧ conversation_metadata mem1 !! cid0 = Some md1
    ∧ message_count md1 = Z.of_nat (length (added_to cid0 calls))
    ∧ (∀ cid, cid ≠ cid0 ->
         conversations mem1 !! cid = conversations mem !! cid
         ∧ conversation_metadata mem1 !! cid = conversation_metadata mem !! cid))
    as (mem1 & md1 & Hrun & Hcap1 & Hd & Hmd & Hcount & Hother).
  { destruct (H cid0) as [Hnil Hcons].
    destruct (decide (added_to cid0 calls = [])) as [E|E].
    - destruct (Hnil E) as [Hc Hm]. rewrite Hc, Hcap.
      unfold deque_new. replace (Z.of_nat cap <? 0) with false by lia.
      eexists _, (mkMetadata now now 0). split; [reflexivity|]. simpl.
      rewrite !lookup_insert_eq, E, Nat2Z.id. simpl.
      repeat split; try done.
      + by rewrite lookup_insert_ne.
      + by rewrite lookup_insert_ne.
    - destruct (Hcons E) as [Hc (md & Hm & Hn)]. rewrite Hc.
      exists mem, md. repeat split; done. }
  unfold add_message. rewrite Hrun.
  unfold mbind at 1, outcome_bind, obind. rewrite Hd, Hmd.
  eexists. split; [reflexivity|]. split; [done|]. simpl.
  intros cid. rewrite added_to_snoc.
  destruct (decide (cid0 = cid)) as [->|Hne].
  - rewrite !lookup_insert_eq. split; [by destruct (added_to cid calls)|].
    intros _. rewrite deque_append_most_recent. split; [done|].
    eexists. split; [done|]. simpl. rewrite length_app. simpl. lia.
  - rewrite app_nil_r, !lookup_insert_ne by done.
    destruct (Hother cid) as [-> ->]; [done|]. apply H.
Qed.

Lemma run_adds_holds cap w calls :
  ∃ mem, run_adds (new_memory (Z.of_nat cap) w) calls = Returned mem ∧ holds cap mem calls.
Proof.
  induction calls as [|[[cid0 message] now] calls (mem & Hrun & Hh)] using rev_ind.
  - eexists. split; [reflexivity|]. split; [done|]. intros cid. split; [done|].
    intros []. reflexivity.
  - destruct (add_message_holds cap mem calls cid0 message now Hh) as (mem' & Hadd & Hh').
    exists mem'. split; [|done]. rewrite run_adds_snoc, Hrun. exact Hadd.
Qed.

(** C9. From a fresh memory of the default capacity, after any run of
    [add_message] calls that adds more than 20 messages to a conversation
    (calls for other conversations may come in between), the buffer of
    that conversation has length 20 and holds the 20 messages added last,
    in the order they were added: the older ones were dropped from the
    front. *)
Theorem buffer_keeps_20_most_recent (calls : list AddCall) (cid : string) :
  (20 < length (added_to cid calls))%nat ->
  ∃ mem ms,
    run_adds default_memory calls = Returned mem
    ∧ buffer mem cid = Some ms
    ∧ length ms = 20%nat
    ∧ ms = drop (length (added_to cid calls) - 20) (added_to cid calls)
    ∧ ∃ evicted, added_to cid calls = evicted ++ ms.
Proof.
  intros HN.
  destruct (run_adds_holds 20 6 calls) as (mem & Hrun & _ & H).
  destruct (H cid) as [_ Hcons].
  destruct Hcons as [Hc _]; [intros E; rewrite E in HN; simpl in HN; lia|].
  exists mem, (most_recent 20 (added_to cid calls)).
  split; [exact Hrun|]. unfold buffer. rewrite Hc. simpl.
  split; [done|]. split; [rewrite most_recent_length; lia|]. split; [done|].
  exists (take (length (added_to cid calls) - 20) (added_to cid calls)).
  unfold most_recent. by rewrite take_drop.
Qed.

(** C10. From a fresh memory of the default capacity, the [message_count]
    of a conversation is the number of messages ever added to it: eviction
    never lowers it, later calls only raise it, and after more than 20
    additions it exceeds the 20 messages the buffer holds. *)
Theorem message_count_counts_all_adds (calls : list AddCall) (cid : string) :
  added_to cid calls ≠ [] ->
  ∃ mem,
    run_adds default_memory calls = Returned mem
    ∧ count_of mem cid = Some (Z.of_nat (length (added_to cid calls)))
    ∧ ((20 < length (added_to cid calls))%nat ->
         ∃ ms, buffer mem cid = Some ms ∧ length ms = 20%nat)
    ∧ ∀ more, ∃ mem',
        run_adds default_memory (calls ++ more) = Returned mem'
        ∧ count_of mem' cid
          = Some (Z.of_nat (length (added_to cid calls))
                  + Z.of_nat (length (added_to cid more))).
Proof.
  intros Hne.
  destruct (run_adds_holds 20 6 calls) as (mem & Hrun & _ & H).
  destruct (H cid) as [_ Hcons]. destruct (Hcons Hne) as [Hc (md & Hm & Hn)].
  exists mem. split; [exact Hrun|]. split.
  { unfold count_of. rewrite Hm. simpl. by rewrite Hn. }
  split.
  { intros HN. exists (most_recent 20 (added_to cid calls)).
    unfold buffer. rewrite Hc. split; [done|]. rewrite most_recent_length. lia. }
  intros more.
  destruct (run_adds_holds 20 6 (calls ++ more)) as (mem' & Hrun' & _ & H').
  exists mem'. split; [exact Hrun'|].
  destruct (H' cid) as [_ Hcons'].
  assert (added_to cid (calls ++ more) = added_to cid calls ++ added_to cid more) as Happ.
  { unfold added_to. apply omap_app. }
  destruct Hcons' as [_ (md' & Hm' & Hn')].
  { rewrite Happ. by destruct (added_to cid calls). }
  unfold count_of. rewrite Hm'. simpl. rewrite Hn', Happ, length_app. f_equal. lia.
Qed.

Lemma buffer_keeps_20_most_recent_witness :
  ∃ mem ms,
    run_adds default_memory demo_calls = Returned mem
    ∧ buffer mem "c1" = Some ms
    ∧ length ms = 20%nat
    ∧ ms = drop (length (added_to "c1" demo_calls) - 20) (added_to "c1" demo_calls)
    ∧ ∃ evicted, added_to "c1" demo_calls = evicted ++ ms.
Proof.
  apply (buffer_keeps_20_most_recent demo_calls "c1"). vm_compute. lia.
Defined.

Lemma message_count_counts_all_adds_witness :
  ∃ mem,
    run_adds default_memory demo_calls = Returned mem
    ∧ count_of mem "c1" = Some 25.
Proof.
  destruct (message_count_counts_all_adds demo_calls "c1") as (mem & Hrun & Hcount & _).
  - vm_compute. discriminate.
  - exists mem. split; [exact Hrun | exact Hcount].
Defined.

End Memory.

(** ** The orchestrator's steps always return *)

Ltac run_m :=
  unfold mbind, mret, M_bind, M_ret, bind, ret, append, try_catch, lift; simpl.

Section Steps.

Variable tools : Tools.

Lemma run_vector q n ch :
  _vector_retrieval tools q n ch
  = (ch ++ trace_of (_vector_retrieval tools q n), Returned (vector_pass tools q n)).
Proof.
  unfold vector_pass, value_of, trace_of, _vector_retrieval.
  destruct (chroma_client tools) as [client|]; run_m; [|done].
  destruct (vector_search_call tools client q n); simpl; by rewrite <- !app_assoc.
Qed.

Lemma run_graph q n ch :
  _graph_retrieval tools q n ch
  = (ch ++ trace_of (_graph_retrieval tools q n), Returned (graph_pass tools q n)).
Proof.
  unfold graph_pass, value_of, trace_of, _graph_retrieval.
  destruct (neo4j_driver tools) as [driver|]; run_m; [|done].
  destruct (graph_collect driver q n); simpl; by rewrite <- !app_assoc.
Qed.

Lemma run_filter q n ch :
  _filter_retrieval q n ch = (ch ++ [LogicalFilterStep; FilterResults 0], Returned []).
Proof. unfold _filter_retrieval. run_m. by rewrite <- app_assoc. Qed.

Lemma hybrid_pass_eq q n :
  hybrid_pass tools q n
  = py_slice_to n (sort_by_score_desc
                     (dedup (vector_pass tools q (n `div` 2) ++ graph_pass tools q (n `div` 2)))).
Proof.
  unfold hybrid_pass, value_of, _hybrid_retrieval. run_m.
  rewrite run_vector, run_graph. done.
Qed.

Lemma run_hybrid q n ch :
  _hybrid_retrieval tools q n ch
  = (ch ++ trace_of (_hybrid_retrieval tools q n), Returned (hybrid_pass tools q n)).
Proof.
  unfold hybrid_pass, value_of, trace_of, _hybrid_retrieval. run_m.
  rewrite !run_vector, !run_graph. simpl. by rewrite <- !app_assoc.
Qed.

Lemma hybrid_trace q n :
  trace_of (_hybrid_retrieval tools q n)
  = [HybridSearch] ++ trace_of (_vector_retrieval tools q (n `div` 2))
    ++ trace_of (_graph_retrieval tools q (n `div` 2))
    ++ [HybridCombination (length (vector_pass tools q (n `div` 2)))
          (length (graph_pass tools q (n `div` 2)))
          (length (sort_by_score_desc
                     (dedup (vector_pass tools q (n `div` 2)
                             ++ graph_pass tools q (n `div` 2)))))].
Proof.
  unfold trace_of at 1. unfold _hybrid_retrieval. run_m.
  rewrite !run_vector, !run_graph. simpl. by rewrite <- !app_assoc.
Qed.

Lemma run_adaptive q n ch :
  _adaptive_retrieval tools q n ch
  = (ch ++ [AdaptiveSearch] ++ trace_of (_vector_retrieval tools q (n `div` 3))
        ++ (if good_initial tools (vector_pass tools q (n `div` 3))
            then trace_of (_graph_retrieval tools q (n `div` 3))
            else trace_of (_hybrid_retrieval tools q n))
        ++ [AdaptiveDecision
              (match vector_pass tools q (n `div` 3) with
               | [] => 0%Q
               | _ => np_mean tools (map score (vector_pass tools q (n `div` 3)))
               end)
              (length (adaptive_all tools q n))],
     Returned (py_slice_to n (adaptive_all tools q n))).
Proof.
  unfold adaptive_all, _adaptive_retrieval. run_m. rewrite run_vector.
  destruct (good_initial tools (vector_pass tools q (n `div` 3))).
  - rewrite run_graph. simpl. by rewrite <- !app_assoc.
  - rewrite run_hybrid. simpl. by rewrite <- !app_assoc.
Qed.

End Steps.

(** ** retrieve *)

Section Retrieve.

Variable tools : Tools.

Lemma run_strategy_run s q n ch :
  run_strategy tools s q n ch
  = (ch ++ trace_of (run_strategy tools s q n), Returned (value_of (run_strategy tools s q n))).
Proof.
  unfold value_of, trace_of. destruct s; unfold run_strategy.
  - rewrite (run_vector tools q n ch), (run_vector tools q n []). done.
  - rewrite (run_graph tools q n ch), (run_graph tools q n []). done.
  - rewrite (run_filter q n ch), (run_filter q n []). done.
  - rewrite (run_hybrid tools q n ch), (run_hybrid tools q n []). done.
  - rewrite (run_adaptive tools q n ch), (run_adaptive tools q n []). done.
Qed.

(** [retrieve_with] returns whatever the dispatch does: its response is
    built from what the dispatch returned, or is the empty response of the
    [except] when the dispatch raised. *)
Lemma retrieve_with_cases dispatch fresh_id query_text strategy n :
  ∃ q,
    QueryAnalyzer.analyze_query fresh_id query_text = Returned q
    ∧ let s := default (StrategySelector.select_strategy q) strategy in
      retrieve_with dispatch fresh_id query_text strategy n
      = Returned
          (match
             dispatch s q n
               [QueryAnalysisStep (intent q) (complexity_score q) (entities_mentioned q)
                  (strategy_value s)]
           with
           | (chain, Returned rs) =>
               mkRetrievalResponse (q_id q) (strategy_value s) rs chain (length rs)
                 (_calculate_confidence rs q)
           | (chain, Raised e) =>
               mkRetrievalResponse (q_id q) (strategy_value s) []
                 (chain ++ [ErrorStep e]) 0 0%Q
           end).
Proof.
  destruct (analyze_query_returns fresh_id query_text) as (entities & _ & Hq).
  eexists. split; [exact Hq|]. simpl. unfold retrieve_with. rewrite Hq.
  unfold mbind at 1, outcome_bind, obind.
  unfold mbind, mret, M_bind, M_ret, bind, ret.
  by destruct (dispatch _ _ _ _) as [chain [e|rs]].
Qed.

(** [retrieve] returns, and its response is the value and the trace of
    the strategy that ran. *)
Lemma retrieve_returns fresh_id query_text strategy n :
  ∃ q,
    QueryAnalyzer.analyze_query fresh_id query_text = Returned q
    ∧ let s := default (StrategySelector.select_strategy q) strategy in
      retrieve tools fresh_id query_text strategy n
      = Returned
          (mkRetrievalResponse (q_id q) (strategy_value s)
             (value_of (run_strategy tools s q n))
             (QueryAnalysisStep (intent q) (complexity_score q) (entities_mentioned q)
                (strategy_value s)
              :: trace_of (run_strategy tools s q n))
             (length (value_of (run_strategy tools s q n)))
             (_calculate_confidence (value_of (run_strategy tools s q n)) q)).
Proof.
  destruct (analyze_query_returns fresh_id query_text) as (entities & _ & Hq).
  eexists. split; [exact Hq|]. simpl. unfold retrieve, retrieve_with. rewrite Hq.
  unfold mbind at 1, outcome_bind, obind.
  unfold mbind, mret, M_bind, M_ret, bind, ret. rewrite run_strategy_run. done.
Qed.

Lemma py_slice_to_length {A} (n : Z) (l : list A) :
  0 <= n -> Z.of_nat (length (py_slice_to n l)) <= n.
Proof.
  intros Hn. unfold py_slice_to. replace (0 <=? n) with true by lia.
  rewrite length_take. lia.
Qed.

Lemma good_initial_iff l :
  good_initial tools l = true <-> l ≠ [] ∧ (7 # 10 < np_mean tools (map score l))%Q.
Proof.
  unfold good_initial. rewrite andb_true_iff, Qltb_lt, Nat.ltb_lt.
  destruct l; simpl; split; intros [H1 H2]; split; try done; lia.
Qed.

End Retrieve.

(** C1. A [retrieve] call under the adaptive strategy returns; its chain
    shows the vector pass for [max_results // 3] results first; when that
    pass is non-empty and the mean of its scores, as [np.mean] computes
    it, exceeds 0.7, the results are those of the vector pass followed by
    those of a graph pass for [max_results // 3]; otherwise they are those
    of a hybrid retrieval for [max_results], the vector pass being
    dropped; in both cases the list is cut by [[:max_results]], so it has
    at most [max_results] entries when [max_results] is not negative. *)
Theorem adaptive_retrieval_escalation (tools : Tools) (fresh_id query_text : string)
  (max_results : Z) :
  ∃ q resp,
    QueryAnalyzer.analyze_query fresh_id query_text = Returned q
    ∧ retrieve tools fresh_id query_text (Some ADAPTIVE) max_results = Returned resp
    ∧ strategy_used resp = "adaptive"
    ∧ (∃ first rest,
         reasoning_chain resp
         = first :: AdaptiveSearch
           :: trace_of (_vector_retrieval tools q (max_results `div` 3)) ++ rest)
    ∧ (let initial := vector_pass tools q (max_results `div` 3) in
       (initial ≠ [] ∧ (7 # 10 < np_mean tools (map score initial))%Q ->
          results resp
          = py_slice_to max_results (initial ++ graph_pass tools q (max_results `div` 3)))
       ∧ (¬ (initial ≠ [] ∧ (7 # 10 < np_mean tools (map score initial))%Q) ->
          results resp
          = py_slice_to max_results (hybrid_pass tools q max_results)))
    ∧ (0 <= max_results -> Z.of_nat (length (results resp)) <= max_results).
Proof.
  destruct (retrieve_returns tools fresh_id query_text (Some ADAPTIVE) max_results)
    as (q & Hq & Hr).
  simpl in Hr. exists q. eexists. split; [exact Hq|]. split; [exact Hr|].
  unfold value_of, trace_of. rewrite (run_adaptive tools q max_results []). simpl.
  split; [done|]. split; [by eexists _, _|]. split.
  - unfold adaptive_all. split; intros H.
    + apply good_initial_iff in H. by rewrite H.
    + destruct (good_initial tools (vector_pass tools q (max_results `div` 3))) eqn:E; [|done].
      apply good_initial_iff in E. done.
  - apply py_slice_to_length.
Qed.

(** ** Ranking *)

Section Ranking.

Lemma insert_desc_perm x l : insert_desc x l ≡ₚ x :: l.
Proof.
  induction l as [|y l IH]; simpl; [done|].
  destruct (Qltb (score x) (score y)); [|done].
  rewrite IH. apply perm_swap.
Qed.

Lemma sort_by_score_desc_perm l : sort_by_score_desc l ≡ₚ l.
Proof.
  induction l as [|x l IH]; simpl; [done|].
  by rewrite insert_desc_perm, IH.
Qed.

Lemma insert_desc_descending x l : descending l -> descending (insert_desc x l).
Proof.
  unfold descending. induction 1 as [|y l Hl IH Hy]; simpl.
  - repeat constructor.
  - destruct (Qltb (score x) (score y)) eqn:E.
    + constructor; [done|]. rewrite insert_desc_perm. constructor; [|done].
      apply Qltb_lt in E. by apply Qlt_le_weak.
    + apply Qltb_ge in E. constructor; [by constructor|].
      constructor; [done|]. eapply Forall_impl; [exact Hy|].
      intros z Hz. simpl in Hz. by eapply Qle_trans.
Qed.

Lemma sort_by_score_desc_descending l : descending (sort_by_score_desc l).
Proof.
  induction l as [|x l IH]; simpl; [constructor|]. by apply insert_desc_descending.
Qed.

Lemma take_descending n l : descending l -> descending (take n l).
Proof.
  unfold descending. intros H. revert n.
  induction H as [|y l Hl IH Hy]; intros [|n]; simpl; try constructor.
  - apply IH.
  - by apply Forall_take.
Qed.

Lemma py_slice_to_descending n l : descending l -> descending (py_slice_to n l).
Proof. intros H. unfold py_slice_to. destruct (0 <=? n); by apply take_descending. Qed.

Lemma hybrid_pass_descending tools q n : descending (hybrid_pass tools q n).
Proof.
  rewrite hybrid_pass_eq. apply py_slice_to_descending, sort_by_score_desc_descending.
Qed.

End Ranking.

(** C5, amended. A [retrieve] call returns, and its results are ranked
    descending by score when the strategy used is hybrid (which sorts) or
    filter-only (which returns nothing), and when it is adaptive and the
    test on the first vector pass fails (the pass is empty, or the mean
    [np.mean] computes for its scores does not exceed 0.7), so that the
    results are those of a hybrid retrieval. Under the other strategies
    the results keep the order the tools gave them: the vector pass, the
    graph pass, or for an adaptive retrieval whose test succeeds the
    vector results followed by the graph results. *)
Theorem hybrid_results_descending (tools : Tools) (fresh_id query_text : string)
  (strategy : option RetrievalStrategy) (max_results : Z) :
  ∃ q resp,
    QueryAnalyzer.analyze_query fresh_id query_text = Returned q
    ∧ retrieve tools fresh_id query_text strategy max_results = Returned resp
    ∧ (strategy_used resp = "hybrid" -> descending (results resp))
    ∧ (strategy_used resp = "logical_filter" -> descending (results resp))
    ∧ (strategy_used resp = "adaptive" ->
       good_initial tools (vector_pass tools q (max_results `div` 3)) = false ->
       descending (results resp))
    ∧ (strategy_used resp = "vector_only" ->
       results resp = vector_pass tools q max_results)
    ∧ (strategy_used resp = "graph_only" ->
       results resp = graph_pass tools q max_results)
    ∧ (strategy_used resp = "adaptive" ->
       good_initial tools (vector_pass tools q (max_results `div` 3)) = true ->
       results resp
       = py_slice_to max_results
           (vector_pass tools q (max_results `div` 3)
            ++ graph_pass tools q (max_results `div` 3))).
Proof.
  destruct (retrieve_returns tools fresh_id query_text strategy max_results)
    as (q & Hq & Hr).
  simpl in Hr. exists q. eexists. split; [exact Hq|]. split; [exact Hr|]. simpl.
  destruct (default (StrategySelector.select_strategy q) strategy);
    repeat split; try discriminate; intros _.
  - constructor.
  - unfold value_of, run_strategy. rewrite (run_hybrid tools q max_results []). simpl.
    apply hybrid_pass_descending.
  - intros Hbad. unfold value_of, run_strategy.
    rewrite (run_adaptive tools q max_results []). simpl.
    unfold adaptive_all. rewrite Hbad.
    apply py_slice_to_descending, hybrid_pass_descending.
  - intros Hgood. unfold value_of, run_strategy.
    rewrite (run_adaptive tools q max_results []). simpl.
    unfold adaptive_all. by rewrite Hgood.
Qed.

(** C6, amended. A [retrieve] call under the filter-only strategy returns
    an empty result list with confidence 0.0, whatever the tools and the
    query, after recording the two steps [logical_filter] and
    [filter_results]: the orchestrator's filter step is a placeholder that
    reads no condition and asks no store. The translation of a condition
    list into a query is the filter tool's: [MATCH (n)], a [WHERE] line
    joining the conditions with [AND] when there are any, and
    [RETURN n LIMIT k]; its [search] hands back the store's records as
    they are. *)
Theorem filter_retrieval_is_placeholder (tools : Tools) (fresh_id query_text : string)
  (max_results : Z) :
  (∃ q resp,
     QueryAnalyzer.analyze_query fresh_id query_text = Returned q
     ∧ retrieve tools fresh_id query_text (Some LOGICAL_FILTER) max_results = Returned resp
     ∧ strategy_used resp = "logical_filter"
     ∧ results resp = []
     ∧ total_results resp = 0%nat
     ∧ confidence_score resp = 0%Q
     ∧ reasoning_chain resp
       = [QueryAnalysisStep (intent q) (complexity_score q) (entities_mentioned q)
            "logical_filter";
          LogicalFilterStep; FilterResults 0]
     ∧ map step_name (reasoning_chain resp)
       = ["query_analysis"; "logical_filter"; "filter_results"])
  ∧ (∀ limit,
       LogicalFilterTool._build_filter_query [] limit
       = "MATCH (n)" +:+ nl +:+ "RETURN n LIMIT " +:+ LogicalFilterTool.str_int limit)
  ∧ (∀ c filters limit,
       LogicalFilterTool._build_filter_query (c :: filters) limit
       = "MATCH (n)" +:+ nl +:+ "WHERE "
         +:+ join " AND " (map LogicalFilterTool._condition_to_cypher (c :: filters))
         +:+ nl +:+ "RETURN n LIMIT " +:+ LogicalFilterTool.str_int limit)
  ∧ (∀ db query filters limit,
       LogicalFilterTool.search (Some db) query filters limit
       = db (LogicalFilterTool._build_filter_query filters limit)).
Proof.
  split; [|by repeat split].
  destruct (retrieve_returns tools fresh_id query_text (Some LOGICAL_FILTER) max_results)
    as (q & Hq & Hr).
  simpl in Hr. exists q. eexists. split; [exact Hq|]. split; [exact Hr|].
  by repeat split.
Qed.

(** ** Confidence *)

Section Confidence.

Lemma Qsum_nonneg xs : Forall (fun x => (0 <= x)%Q) xs -> (0 <= Qsum xs)%Q.
Proof.
  induction 1 as [|x xs Hx _ IH]; simpl; [apply Qle_refl|].
  change 0%Q with (0 + 0)%Q. by apply Qplus_le_compat.
Qed.

Lemma Qdiv_nat_nonneg x (n : nat) : (0 <= x)%Q -> (0 <= x / inject_Z (Z.of_nat n))%Q.
Proof.
  intros Hx. unfold Qdiv. apply Qmult_le_0_compat; [done|].
  apply Qinv_le_0_compat. change 0%Q with (inject_Z 0). rewrite <- Zle_Qle. lia.
Qed.

Lemma Qmean_nonneg xs : Forall (fun x => (0 <= x)%Q) xs -> (0 <= Qmean xs)%Q.
Proof. intros H. unfold Qmean. by apply Qdiv_nat_nonneg, Qsum_nonneg. Qed.

Lemma Qnat_div_nonneg (n : nat) (d : Q) : (0 < d)%Q -> (0 <= inject_Z (Z.of_nat n) / d)%Q.
Proof.
  intros Hd. unfold Qdiv. apply Qmult_le_0_compat.
  - change 0%Q with (inject_Z 0). rewrite <- Zle_Qle. lia.
  - apply Qinv_le_0_compat. by apply Qlt_le_weak.
Qed.

(** The number of distinct source types, counted on the list. *)
Lemma size_source_types (l : list string) :
  size (list_to_set l : gset string) = length (remove_dups l).
Proof.
  rewrite <- (size_list_to_set (C := gset string) (remove_dups l))
    by apply NoDup_remove_dups.
  f_equal. apply set_eq. intros x.
  by rewrite !elem_of_list_to_set, elem_of_remove_dups.
Qed.

Lemma confidence_le_1 results query : (_calculate_confidence results query <= 1)%Q.
Proof.
  unfold _calculate_confidence. destruct results; [done|]. apply Q.le_min_r.
Qed.

Lemma confidence_nonneg results query :
  Forall (fun r => (0 <= score r)%Q) results ->
  (complexity_score query <= 1)%Q ->
  (0 <= _calculate_confidence results query)%Q.
Proof.
  intros Hs Hc. unfold _calculate_confidence.
  destruct results as [|r results]; [apply Qle_refl|].
  apply Q.min_glb; [|done].
  assert (0 <= Qmean (map score (r :: results)))%Q as H1.
  { apply Qmean_nonneg. by apply Forall_fmap. }
  assert (0 <= Qmin (inject_Z (Z.of_nat (length (r :: results))) / 10) 1)%Q as H2.
  { apply Q.min_glb; [by apply Qnat_div_nonneg | done]. }
  assert (0 <= inject_Z (Z.of_nat (size (list_to_set (map source_type (r :: results))
                                         : gset string))) / 3)%Q as H3.
  { by apply Qnat_div_nonneg. }
  revert H1 H2 H3.
  generalize (Qmean (map score (r :: results))).
  generalize (Qmin (inject_Z (Z.of_nat (length (r :: results))) / 10) 1).
  generalize (inject_Z (Z.of_nat (size (list_to_set (map source_type (r :: results))
                                        : gset string))) / 3)%Q.
  intros d c a H1 H2 H3. lra.
Qed.

End Confidence.

(** C4, amended. For a non-empty result list the confidence is the
    weighted sum mean score x 0.5 + min(count/10, 1) x 0.2
    + (1 - complexity x 0.3) x 0.2 + (distinct source types / 3) x 0.1,
    capped at 1 and not raised to 0 when it is negative; for an empty list
    it is 0.0; the confidence of every response is at most 1, and it is at
    least 0 when no result has a negative score. *)
Theorem confidence_formula_and_bounds :
  (∀ query, _calculate_confidence [] query = 0%Q)
  ∧ (∀ results query, results ≠ [] ->
       (_calculate_confidence results query
        == Qmin (Qmean (map score results) * (5 # 10)
                 + Qmin (inject_Z (Z.of_nat (length results)) / 10) 1 * (2 # 10)
                 + (1 - complexity_score query * (3 # 10)) * (2 # 10)
                 + inject_Z (Z.of_nat (length (remove_dups (map source_type results)))) / 3
                   * (1 # 10)) 1)%Q)
  ∧ (∀ tools fresh_id query_text strategy max_results,
       ∃ resp,
         retrieve tools fresh_id query_text strategy max_results = Returned resp
         ∧ (confidence_score resp <= 1)%Q
         ∧ ((∀ r, r ∈ results resp -> (0 <= score r)%Q) ->
            (0 <= confidence_score resp)%Q)).
Proof.
  split; [done|]. split.
  - intros results query Hne. unfold _calculate_confidence.
    destruct results as [|r results]; [done|].
    rewrite size_source_types. reflexivity.
  - intros tools fresh_id query_text strategy max_results.
    destruct (retrieve_returns tools fresh_id query_text strategy max_results)
      as (q & Hq & Hr).
    simpl in Hr. eexists. split; [exact Hr|]. simpl. split.
    + apply confidence_le_1.
    + intros Hs. apply confidence_nonneg.
      * by apply Forall_forall.
      * by eapply analyze_query_complexity.
Qed.

(** ** Failures *)

Section Failures.

Variable tools : Tools.

Lemma run_vector_fails q n e ch :
  vector_fails tools q n e ->
  _vector_retrieval tools q n ch
  = (ch ++ [VectorSearch (q_text q); VectorSearchError e], Returned []).
Proof.
  intros (client & Hc & He). unfold _vector_retrieval. rewrite Hc. run_m.
  rewrite He. by rewrite <- app_assoc.
Qed.

Lemma run_graph_fails q n e ch :
  graph_fails tools q n e ->
  _graph_retrieval tools q n ch
  = (ch ++ [GraphSearch (entities_mentioned q); GraphSearchError e], Returned []).
Proof.
  intros (driver & Hd & He). unfold _graph_retrieval. rewrite Hd. run_m.
  rewrite He. by rewrite <- app_assoc.
Qed.

(** A pass that goes through hands back the collaborator's answer in the
    collaborator's order. *)
Lemma vector_pass_hits q n client hits :
  chroma_client tools = Some client ->
  vector_search_call tools client q n = Returned hits ->
  vector_pass tools q n = map hit_to_result hits.
Proof.
  intros Hc Hh. unfold vector_pass, value_of, _vector_retrieval. rewrite Hc. run_m.
  by rewrite Hh.
Qed.

Lemma graph_pass_triples q n driver found :
  neo4j_driver tools = Some driver ->
  graph_collect driver q n = Returned found ->
  graph_pass tools q n = py_slice_to n found.
Proof.
  intros Hd Hf. unfold graph_pass, value_of, _graph_retrieval. rewrite Hd. run_m.
  by rewrite Hf.
Qed.

Lemma vector_down_pass q n : vector_down tools q -> vector_pass tools q n = [].
Proof.
  intros [Hnone|Hfail]; unfold vector_pass, value_of.
  - unfold _vector_retrieval. by rewrite Hnone.
  - destruct (Hfail n) as [e He]. by rewrite (run_vector_fails q n e [] He).
Qed.

Lemma graph_down_pass q n : graph_down tools q -> graph_pass tools q n = [].
Proof.
  intros [Hnone|Hfail]; unfold graph_pass, value_of.
  - unfold _graph_retrieval. by rewrite Hnone.
  - destruct (Hfail n) as [e He]. by rewrite (run_graph_fails q n e [] He).
Qed.

Lemma py_slice_to_nil {A} n : py_slice_to n (@nil A) = [].
Proof. unfold py_slice_to. destruct (0 <=? n); apply take_nil. Qed.

Lemma vector_fails_pass q n e :
  vector_fails tools q n e ->
  vector_pass tools q n = []
  ∧ trace_of (_vector_retrieval tools q n) = [VectorSearch (q_text q); VectorSearchError e].
Proof.
  intros Hf. unfold vector_pass, value_of, trace_of.
  by rewrite (run_vector_fails q n e [] Hf).
Qed.

Lemma graph_fails_pass q n e :
  graph_fails tools q n e ->
  graph_pass tools q n = []
  ∧ trace_of (_graph_retrieval tools q n)
    = [GraphSearch (entities_mentioned q); GraphSearchError e].
Proof.
  intros Hf. unfold graph_pass, value_of, trace_of.
  by rewrite (run_graph_fails q n e [] Hf).
Qed.

Lemma all_down_no_results s q n :
  vector_down tools q -> graph_down tools q -> value_of (run_strategy tools s q n) = [].
Proof.
  intros Hv Hg.
  assert (hybrid_pass tools q n = []) as Hh.
  { rewrite hybrid_pass_eq, vector_down_pass, graph_down_pass by done.
    apply py_slice_to_nil. }
  destruct s; unfold run_strategy.
  - by apply vector_down_pass.
  - by apply graph_down_pass.
  - done.
  - done.
  - unfold value_of. rewrite (run_adaptive tools q n []). simpl.
    unfold adaptive_all. rewrite vector_down_pass by done. simpl.
    rewrite Hh. apply py_slice_to_nil.
Qed.

End Failures.

Section MemoryInvariant.

Lemma new_memory_wf cap w : 0 <= cap -> mem_wf (new_memory cap w).
Proof.
  intros Hcap. split; [done|]. intros cid [d Hd]. simpl in Hd.
  by rewrite lookup_empty in Hd.
Qed.

Lemma add_message_wf mem cid message now :
  mem_wf mem -> ∃ mem', add_message mem cid message now = Returned mem' ∧ mem_wf mem'.
Proof.
  intros [Hcap Hmd]. unfold add_message.
  destruct (conversations mem !! cid) as [d|] eqn:Hc.
  - destruct (Hmd cid) as [md Hm]; [by eexists|].
    unfold mbind at 1, outcome_bind, obind. rewrite Hc, Hm.
    eexists. split; [reflexivity|]. split; [done|]. simpl.
    intros cid' H. destruct (decide (cid = cid')) as [->|Hne].
    + rewrite lookup_insert_eq. by eexists.
    + rewrite lookup_insert_ne in H by done. rewrite lookup_insert_ne by done.
      by apply Hmd.
  - unfold deque_new. replace (max_messages mem <? 0) with false by lia.
    unfold mbind, mret, outcome_bind, outcome_ret, obind. simpl.
    rewrite !lookup_insert_eq.
    eexists. split; [reflexivity|]. split; [done|]. simpl.
    intros cid' H. destruct (decide (cid = cid')) as [->|Hne].
    + rewrite lookup_insert_eq. by eexists.
    + rewrite !lookup_insert_ne in H by done. rewrite !lookup_insert_ne by done.
      by apply Hmd.
Qed.

Lemma clear_conversation_wf mem cid :
  mem_wf mem ->
  ∃ mem' b, clear_conversation mem cid = Returned (mem', b) ∧ mem_wf mem'.
Proof.
  intros [Hcap Hmd]. unfold clear_conversation.
  destruct (conversations mem !! cid) as [d|] eqn:Hc; [|by eexists _, _].
  destruct (Hmd cid) as [md Hm]; [by eexists|]. rewrite Hm.
  eexists _, _. split; [reflexivity|]. split; [done|]. simpl.
  intros cid' H. destruct (decide (cid = cid')) as [->|Hne].
  - rewrite lookup_delete_eq in H. by destruct H.
  - rewrite lookup_delete_ne in H by done. rewrite lookup_delete_ne by done.
    by apply Hmd.
Qed.

Lemma process_query_returns tools llm_client fmt2 fmt_nat mem query conversation_id ids now :
  mem_wf mem ->
  ∃ mem1 mem' r,
    add_message mem (default (uuid_conversation ids) conversation_id)
      (mkConversationMessage (uuid_user_message ids) "user" query now) now
    = Returned mem1
    ∧ process_query tools llm_client fmt2 fmt_nat mem query conversation_id ids now
      = Returned (mem', r)
    ∧ mem_wf mem'
    ∧ ∀ e,
        process_query_body tools llm_client fmt2 fmt_nat mem1 query
          (default (uuid_conversation ids) conversation_id)
          (get_context mem1 (default (uuid_conversation ids) conversation_id)) ids now
        = Raised e ->
        mem' = mem1 ∧ answer r = error_answer e ∧ rag_confidence_score r = 0%Q
        ∧ supporting_evidence r = [] ∧ reasoning_steps r = [].
Proof.
  intros Hwf. unfold process_query.
  destruct (add_message_wf mem (default (uuid_conversation ids) conversation_id)
              (mkConversationMessage (uuid_user_message ids) "user" query now) now Hwf)
    as (mem1 & Hadd & Hwf1).
  exists mem1. rewrite Hadd. unfold mbind at 1, outcome_bind, obind.
  destruct (process_query_body tools llm_client fmt2 fmt_nat mem1 query
              (default (uuid_conversation ids) conversation_id)
              (get_context mem1 (default (uuid_conversation ids) conversation_id))
              ids now) as [e|[mem2 r]] eqn:Hbody.
  - eexists _, _. split; [done|]. split; [reflexivity|]. split; [done|].
    intros e' [= <-]. by repeat split.
  - exists mem2, r. split; [done|]. split; [done|]. split; [|done].
    unfold process_query_body in Hbody.
    destruct (retrieve tools (uuid_query ids) query (Some ADAPTIVE) 10)
      as [e|resp]; [done|].
    unfold mbind at 1, outcome_bind, obind in Hbody.
    destruct (generate_reasoning_chain query
                (get_context mem1 (default (uuid_conversation ids) conversation_id))
                (results resp)) as [e|steps]; [done|].
    unfold mbind at 1, outcome_bind, obind in Hbody.
    match type of Hbody with
    | context [add_message mem1 ?c ?m ?t] =>
        destruct (add_message_wf mem1 c m t Hwf1) as (mem3 & Hadd3 & Hwf3);
        rewrite Hadd3 in Hbody
    end.
    unfold mbind, mret, outcome_bind, outcome_ret, obind in Hbody.
    by injection Hbody as <- _.
Qed.

Lemma reachable_wf mem : reachable mem -> mem_wf mem.
Proof.
  induction 1 as [cap w Hcap
                 |mem cid message now mem' _ IH Hadd
                 |mem cid mem' b _ IH Hclear
                 |tools llm_client fmt2 fmt_nat mem query conversation_id ids now mem' r
                    _ IH Hp].
  - by apply new_memory_wf.
  - destruct (add_message_wf mem cid message now IH) as (mem2 & Hadd2 & Hwf).
    rewrite Hadd in Hadd2. by injection Hadd2 as ->.
  - destruct (clear_conversation_wf mem cid IH) as (mem2 & b2 & Hclear2 & Hwf).
    rewrite Hclear in Hclear2. by injection Hclear2 as -> _.
  - destruct (process_query_returns tools llm_client fmt2 fmt_nat mem query
                conversation_id ids now IH) as (mem1 & mem2 & r2 & _ & Hp2 & Hwf & _).
    rewrite Hp in Hp2. by injection Hp2 as -> _.
Qed.

End MemoryInvariant.

(** What [process_query] does with results that are not empty: the
    reasoning chain is built from the orchestrator's result objects, which
    the summary step cannot read, so the body of the [try] raises. *)
Lemma process_query_body_raises_on_results tools llm_client fmt2 fmt_nat mem query
  conversation_id context ids now resp :
  retrieve tools (uuid_query ids) query (Some ADAPTIVE) 10 = Returned resp ->
  results resp ≠ [] ->
  process_query_body tools llm_client fmt2 fmt_nat mem query conversation_id context ids now
  = Raised "argument of type 'RetrievalResult' is not iterable".
Proof.
  intros Hr Hne. unfold process_query_body. rewrite Hr.
  unfold mbind at 1, outcome_bind, obind.
  unfold generate_reasoning_chain. by destruct (results resp).
Qed.

(** C3, amended. [retrieve] returns a response whatever happens inside
    its [try]: when the dispatched strategy raises, whatever it is, the
    response has no results, confidence 0.0 and a chain that ends with the
    error record. A tool that raises is caught in its own step, which
    leaves an error record in the chain and contributes nothing: under the
    vector-only and graph-only strategies the response is then empty;
    under the hybrid strategy the other tool still supplies the results;
    under the adaptive strategy, the one [process_query] uses, a failing
    first vector pass is followed by a hybrid retrieval, a failing graph
    pass after a good first pass leaves the vector results, and a tool
    failing inside the hybrid fallback leaves the other tool's results.
    When neither tool is usable the response is empty with confidence 0.0.
    [process_query] returns a response from every memory whose capacity is
    not negative and whose conversations all have their metadata: a fresh
    memory of non-negative capacity is such a memory, and [add_message],
    [clear_conversation] and [process_query] keep it so; hence it returns
    in every state a stream of non-negative [memory_size] gets to. When the
    body of its [try] raises, the answer is the apology followed by the
    error text and the confidence is 0.0. *)
Theorem failures_never_propagate :
  (∀ dispatch fresh_id query_text strategy max_results,
     ∃ q resp,
       QueryAnalyzer.analyze_query fresh_id query_text = Returned q
       ∧ retrieve_with dispatch fresh_id query_text strategy max_results = Returned resp
       ∧ ∀ chain e,
           dispatch (default (StrategySelector.select_strategy q) strategy) q max_results
             [QueryAnalysisStep (intent q) (complexity_score q) (entities_mentioned q)
                (strategy_value (default (StrategySelector.select_strategy q) strategy))]
           = (chain, Raised e) ->
           results resp = [] ∧ total_results resp = 0%nat ∧ confidence_score resp = 0%Q
           ∧ reasoning_chain resp = chain ++ [ErrorStep e])
  ∧ (∀ tools fresh_id query_text strategy max_results,
     ∃ q resp,
       QueryAnalyzer.analyze_query fresh_id query_text = Returned q
       ∧ retrieve tools fresh_id query_text strategy max_results = Returned resp
       ∧ (∀ n e ch, vector_fails tools q n e ->
            _vector_retrieval tools q n ch
            = (ch ++ [VectorSearch (q_text q); VectorSearchError e], Returned []))
       ∧ (∀ n e ch, graph_fails tools q n e ->
            _graph_retrieval tools q n ch
            = (ch ++ [GraphSearch (entities_mentioned q); GraphSearchError e], Returned []))
       ∧ (∀ e, strategy_used resp = "vector_only" ->
            vector_fails tools q max_results e ->
            VectorSearchError e ∈ reasoning_chain resp
            ∧ results resp = [] ∧ confidence_score resp = 0%Q)
       ∧ (∀ e, strategy_used resp = "graph_only" ->
            graph_fails tools q max_results e ->
            GraphSearchError e ∈ reasoning_chain resp
            ∧ results resp = [] ∧ confidence_score resp = 0%Q)
       ∧ (∀ e, strategy_used resp = "hybrid" ->
            vector_fails tools q (max_results `div` 2) e ->
            VectorSearchError e ∈ reasoning_chain resp
            ∧ results resp
              = py_slice_to max_results
                  (sort_by_score_desc (dedup (graph_pass tools q (max_results `div` 2)))))
       ∧ (∀ e, strategy_used resp = "hybrid" ->
            graph_fails tools q (max_results `div` 2) e ->
            GraphSearchError e ∈ reasoning_chain resp
            ∧ results resp
              = py_slice_to max_results
                  (sort_by_score_desc (dedup (vector_pass tools q (max_results `div` 2)))))
       ∧ (∀ e, strategy_used resp = "adaptive" ->
            vector_fails tools q (max_results `div` 3) e ->
            VectorSearchError e ∈ reasoning_chain resp
            ∧ results resp = py_slice_to max_results (hybrid_pass tools q max_results))
       ∧ (∀ e, strategy_used resp = "adaptive" ->
            good_initial tools (vector_pass tools q (max_results `div` 3)) = true ->
            graph_fails tools q (max_results `div` 3) e ->
            GraphSearchError e ∈ reasoning_chain resp
            ∧ results resp
              = py_slice_to max_results (vector_pass tools q (max_results `div` 3)))
       ∧ (∀ e, strategy_used resp = "adaptive" ->
            good_initial tools (vector_pass tools q (max_results `div` 3)) = false ->
            vector_fails tools q (max_results `div` 2) e ->
            VectorSearchError e ∈ reasoning_chain resp
            ∧ results resp
              = py_slice_to max_results
                  (py_slice_to max_results
                     (sort_by_score_desc
                        (dedup (graph_pass tools q (max_results `div` 2))))))
       ∧ (∀ e, strategy_used resp = "adaptive" ->
            good_initial tools (vector_pass tools q (max_results `div` 3)) = false ->
            graph_fails tools q (max_results `div` 2) e ->
            GraphSearchError e ∈ reasoning_chain resp
            ∧ results resp
              = py_slice_to max_results
                  (py_slice_to max_results
                     (sort_by_score_desc
                        (dedup (vector_pass tools q (max_results `div` 2))))))
       ∧ (vector_down tools q -> graph_down tools q ->
            results resp = [] ∧ total_results resp = 0%nat ∧ confidence_score resp = 0%Q))
  ∧ (∀ tools llm_client fmt2 fmt_nat mem query conversation_id ids now,
       mem_wf mem ->
       ∃ mem1 mem' r,
         add_message mem (default (uuid_conversation ids) conversation_id)
           (mkConversationMessage (uuid_user_message ids) "user" query now) now
         = Returned mem1
         ∧ process_query tools llm_client fmt2 fmt_nat mem query conversation_id ids now
           = Returned (mem', r)
         ∧ mem_wf mem'
         ∧ ∀ e,
             process_query_body tools llm_client fmt2 fmt_nat mem1 query
               (default (uuid_conversation ids) conversation_id)
               (get_context mem1 (default (uuid_conversation ids) conversation_id)) ids now
             = Raised e ->
             mem' = mem1 ∧ answer r = error_answer e ∧ rag_confidence_score r = 0%Q
             ∧ supporting_evidence r = [] ∧ reasoning_steps r = [])
  ∧ (∀ cap w, 0 <= cap -> mem_wf (new_memory cap w))
  ∧ (∀ mem cid message now,
       mem_wf mem -> ∃ mem', add_message mem cid message now = Returned mem' ∧ mem_wf mem')
  ∧ (∀ mem cid,
       mem_wf mem -> ∃ mem' b, clear_conversation mem cid = Returned (mem', b) ∧ mem_wf mem')
  ∧ (∀ tools llm_client fmt2 fmt_nat mem query conversation_id ids now,
       reachable mem ->
       ∃ mem' r,
         process_query tools llm_client fmt2 fmt_nat mem query conversation_id ids now
         = Returned (mem', r)
         ∧ reachable mem').
Proof.
  split.
  { intros dispatch fresh_id query_text strategy max_results.
    destruct (retrieve_with_cases dispatch fresh_id query_text strategy max_results)
      as (q & Hq & Hr).
    simpl in Hr. exists q. eexists. split; [exact Hq|]. split; [exact Hr|].
    intros chain e He. by rewrite He. }
  split; [|split; [intros; by apply process_query_returns|]]; cycle 1.
  { split; [apply new_memory_wf|].
    split; [apply add_message_wf|]. split; [apply clear_conversation_wf|].
    intros tools llm_client fmt2 fmt_nat mem query conversation_id ids now Hreach.
    destruct (process_query_returns tools llm_client fmt2 fmt_nat mem query
                conversation_id ids now (reachable_wf mem Hreach))
      as (mem1 & mem' & r & _ & Hp & _).
    exists mem', r. split; [exact Hp|]. by eapply reach_process. }
  intros tools fresh_id query_text strategy max_results.
  destruct (retrieve_returns tools fresh_id query_text strategy max_results)
    as (q & Hq & Hr).
  simpl in Hr. exists q. eexists. split; [exact Hq|]. split; [exact Hr|]. simpl.
  split; [intros; by apply run_vector_fails|].
  split; [intros; by apply run_graph_fails|].
  repeat lazymatch goal with |- _ ∧ _ => split end.
  - intros e Hs Hf.
    destruct (default (StrategySelector.select_strategy q) strategy); try discriminate.
    unfold value_of, trace_of, run_strategy.
    rewrite (run_vector_fails tools q _ e [] Hf). simpl.
    split; [set_solver|done].
  - intros e Hs Hf.
    destruct (default (StrategySelector.select_strategy q) strategy); try discriminate.
    unfold value_of, trace_of, run_strategy.
    rewrite (run_graph_fails tools q _ e [] Hf). simpl.
    split; [set_solver|done].
  - intros e Hs Hf.
    destruct (default (StrategySelector.select_strategy q) strategy); try discriminate.
    unfold value_of, trace_of, run_strategy.
    rewrite (run_hybrid tools q max_results []). simpl.
    rewrite hybrid_trace, hybrid_pass_eq.
    destruct (vector_fails_pass tools q _ e Hf) as [-> ->].
    split; [set_solver|done].
  - intros e Hs Hf.
    destruct (default (StrategySelector.select_strategy q) strategy); try discriminate.
    unfold value_of, trace_of, run_strategy.
    rewrite (run_hybrid tools q max_results []). simpl.
    rewrite hybrid_trace, hybrid_pass_eq.
    destruct (graph_fails_pass tools q _ e Hf) as [-> ->].
    rewrite app_nil_r. split; [set_solver|done].
  - intros e Hs Hf.
    destruct (default (StrategySelector.select_strategy q) strategy); try discriminate.
    unfold value_of, trace_of, run_strategy.
    rewrite (run_adaptive tools q max_results []). simpl.
    unfold adaptive_all.
    destruct (vector_fails_pass tools q _ e Hf) as [-> ->].
    change (good_initial tools []) with false.
    split; [set_solver|done].
  - intros e Hs Hgood Hf.
    destruct (default (StrategySelector.select_strategy q) strategy); try discriminate.
    unfold value_of, trace_of, run_strategy.
    rewrite (run_adaptive tools q max_results []). simpl.
    unfold adaptive_all. rewrite Hgood.
    destruct (graph_fails_pass tools q _ e Hf) as [-> ->].
    rewrite app_nil_r. split; [set_solver|done].
  - intros e Hs Hbad Hf.
    destruct (default (StrategySelector.select_strategy q) strategy); try discriminate.
    unfold value_of, trace_of, run_strategy.
    rewrite (run_adaptive tools q max_results []). simpl.
    unfold adaptive_all. rewrite Hbad.
    rewrite hybrid_trace, hybrid_pass_eq.
    destruct (vector_fails_pass tools q _ e Hf) as [-> ->].
    split; [set_solver|done].
  - intros e Hs Hbad Hf.
    destruct (default (StrategySelector.select_strategy q) strategy); try discriminate.
    unfold value_of, trace_of, run_strategy.
    rewrite (run_adaptive tools q max_results []). simpl.
    unfold adaptive_all. rewrite Hbad.
    rewrite hybrid_trace, hybrid_pass_eq.
    destruct (graph_fails_pass tools q _ e Hf) as [-> ->].
    rewrite app_nil_r. split; [set_solver|done].
  - intros Hv Hg. by rewrite all_down_no_results.
Qed.

(** ** Worked cases *)

Lemma adaptive_retrieval_escalation_witness :
  ∃ resp,
    retrieve demo_tools "id" "apple" (Some ADAPTIVE) 10 = Returned resp
    ∧ map score (results resp) = [1 - (1 # 10); 1 - (15 # 100); 1 - (2 # 10); 9 # 10]%Q
    ∧ map source_type (results resp) = ["vector"; "vector"; "vector"; "graph"].
Proof.
  destruct (adaptive_retrieval_escalation demo_tools "id" "apple" 10)
    as (q & resp & Hq & Hr & _ & _ & [Hgood _] & _).
  exists resp. split; [exact Hr|].
  vm_compute in Hq. injection Hq as <-.
  rewrite Hgood; [by vm_compute|].
  split; [discriminate | reflexivity].
Defined.

(** C5, as stated, fails: an adaptive retrieval whose vector pass scores
    0.9, 0.85 and 0.8 is followed by the graph result of score 0.9. *)
Lemma adaptive_results_not_descending :
  ∃ resp,
    retrieve demo_tools "id" "apple" (Some ADAPTIVE) 10 = Returned resp
    ∧ ¬ descending (results resp).
Proof.
  eexists. split; [by vm_compute|].
  unfold descending. intros H.
  apply StronglySorted_inv in H as [H _].
  apply StronglySorted_inv in H as [H _].
  apply StronglySorted_inv in H as [_ H].
  apply Forall_inv in H. vm_compute in H. by apply H.
Qed.

Lemma hybrid_results_descending_witness :
  ∃ resp,
    retrieve demo_tools "id" "apple" (Some HYBRID) 10 = Returned resp
    ∧ descending (results resp).
Proof.
  destruct (hybrid_results_descending demo_tools "id" "apple" (Some HYBRID) 10)
    as (q & resp & Hq & Hr & Hh & _).
  exists resp. split; [exact Hr|]. apply Hh.
  vm_compute in Hr. injection Hr as <-. reflexivity.
Defined.

(** C4, as stated, fails: a single vector hit at distance 3 has score -2,
    and the confidence of the response is negative. *)
Lemma confidence_can_be_negative :
  ∃ resp,
    retrieve far_tools "id" "apple" None 10 = Returned resp
    ∧ map score (results resp) = [1 - 3]%Q
    ∧ (confidence_score resp < 0)%Q
    ∧ ¬ (0 <= confidence_score resp <= 1)%Q.
Proof.
  eexists. split; [by vm_compute|]. split; [reflexivity|].
  split; [by vm_compute|]. intros [H _]. vm_compute in H. by apply H.
Qed.

Lemma confidence_formula_and_bounds_witness :
  (_calculate_confidence
     [mkRetrievalResult "d1" "Apple designs phones" (9 # 10) "vector";
      mkRetrievalResult "g1" "Apple EMPLOYS Tim Cook" (7 # 10) "graph"]
     (mkRetrievalQuery "q" "apple" "general_search" [] "targeted" (1 # 2))
   == 203 # 300)%Q
  ∧ ∃ resp,
      retrieve demo_tools "id" "apple" (Some HYBRID) 10 = Returned resp
      ∧ (0 <= confidence_score resp)%Q.
Proof.
  destruct confidence_formula_and_bounds as (_ & Hformula & Hretrieve). split.
  - rewrite Hformula by discriminate. by vm_compute.
  - destruct (Hretrieve demo_tools "id"%string "apple"%string (Some HYBRID) 10)
      as (resp & Hr & _ & Hlow).
    exists resp. split; [exact Hr|]. apply Hlow.
    vm_compute in Hr. injection Hr as <-. simpl.
    intros r Hin. repeat (apply elem_of_cons in Hin as [->|Hin]); try discriminate.
    by apply elem_of_nil in Hin.
Defined.

(** C6, as stated, fails: with a store that has a matching record, a
    filter-only retrieval does not return it. *)
Lemma filter_retrieval_returns_no_records :
  ¬ (∀ tools db fresh_id query_text filters max_results,
       ∃ resp,
         retrieve tools fresh_id query_text (Some LOGICAL_FILTER) max_results = Returned resp
         ∧ filter_results_as_described (Some db) query_text filters max_results
           = Returned (results resp)).
Proof.
  intros H.
  destruct (H demo_tools demo_store "id"%string "apple"%string [] 10) as (resp & Hr & Hd).
  vm_compute in Hr. injection Hr as <-. vm_compute in Hd. discriminate.
Qed.

Lemma failures_never_propagate_witness :
  (∃ resp,
     retrieve_with (fun _ _ _ => raise "'NoneType' object has no attribute 'lower'")
       "id" "apple" None 10
     = Returned resp
     ∧ results resp = [] ∧ confidence_score resp = 0%Q
     ∧ map step_name (reasoning_chain resp) = ["query_analysis"; "error"])
  ∧ (∃ resp,
       retrieve vector_broken_tools "id" "apple" (Some HYBRID) 10 = Returned resp
       ∧ VectorSearchError "connection refused" ∈ reasoning_chain resp
       ∧ map source_type (results resp) = ["graph"])
  ∧ (∃ resp,
       retrieve vector_broken_tools "id" "apple" (Some ADAPTIVE) 10 = Returned resp
       ∧ VectorSearchError "connection refused" ∈ reasoning_chain resp
       ∧ map source_type (results resp) = ["graph"])
  ∧ (∃ resp,
       retrieve broken_tools "id" "apple" (Some ADAPTIVE) 10 = Returned resp
       ∧ results resp = [] ∧ confidence_score resp = 0%Q)
  ∧ (∃ mem' r,
       process_query demo_tools None no_fmt2 no_fmt_nat default_memory "apple"
         (Some "c1"%string) demo_ids 0
       = Returned (mem', r)
       ∧ rag_confidence_score r = 0%Q).
Proof.
  destruct failures_never_propagate as (Hexcept & Hretrieve & Hprocess & _).
  split; [|split; [|split; [|split]]].
  - destruct (Hexcept (fun _ _ _ => raise "'NoneType' object has no attribute 'lower'")
                "id"%string "apple"%string None 10) as (q & resp & Hq & Hr & Herr).
    exists resp. split; [exact Hr|].
    destruct (Herr _ _ eq_refl) as (Hres & _ & Hconf & Hchain).
    split; [exact Hres|]. split; [exact Hconf|]. rewrite Hchain. reflexivity.
  - destruct (Hretrieve vector_broken_tools "id"%string "apple"%string (Some HYBRID) 10)
      as (q & resp & Hq & Hr & _ & _ & _ & _ & Hv & _).
    exists resp. split; [exact Hr|].
    vm_compute in Hq. injection Hq as <-.
    destruct (Hv "connection refused"%string) as [Hin Hres].
    + vm_compute in Hr. injection Hr as <-. reflexivity.
    + exists broken_client. split; reflexivity.
    + split; [exact Hin|]. rewrite Hres. by vm_compute.
  - destruct (Hretrieve vector_broken_tools "id"%string "apple"%string (Some ADAPTIVE) 10)
      as (q & resp & Hq & Hr & _ & _ & _ & _ & _ & _ & Hv & _).
    exists resp. split; [exact Hr|].
    vm_compute in Hq. injection Hq as <-.
    destruct (Hv "connection refused"%string) as [Hin Hres].
    + vm_compute in Hr. injection Hr as <-. reflexivity.
    + exists broken_client. split; reflexivity.
    + split; [exact Hin|]. rewrite Hres. by vm_compute.
  - destruct (Hretrieve broken_tools "id"%string "apple"%string (Some ADAPTIVE) 10)
      as (q & resp & Hq & Hr & _ & _ & _ & _ & _ & _ & _ & _ & _ & _ & Hdown).
    exists resp. split; [exact Hr|].
    destruct Hdown as (Hres & _ & Hconf).
    + right. intros n. exists "connection refused"%string, broken_client.
      split; reflexivity.
    + right. intros n. exists "service unavailable"%string, broken_driver.
      split; [reflexivity|]. vm_compute in Hq. injection Hq as <-. reflexivity.
    + by split.
  - destruct (Hprocess demo_tools None no_fmt2 no_fmt_nat default_memory "apple"%string
                (Some "c1"%string) demo_ids 0) as (mem1 & mem' & r & Hadd & Hp & _ & Herr).
    { split; [simpl; lia|]. intros cid [d Hd]. simpl in Hd.
      by rewrite lookup_empty in Hd. }
    exists mem', r. split; [exact Hp|].
    eapply Herr. vm_compute in Hadd. injection Hadd as <-. by vm_compute.
Defined.

(** C3, as stated, fails: a stream built with a negative [memory_size]
    raises the deque's [ValueError] from [process_query], whose first
    [add_message] stands before the [try]. *)
Lemma process_query_raises_before_try :
  process_query demo_tools None no_fmt2 no_fmt_nat (new_memory (-5) 6)
    "Who works for Apple Inc.?" None demo_ids 0
  = Raised "maxlen must be non-negative".
Proof. reflexivity. Qed.

(** * Further properties *)

(** ** More on the query analyzer *)

Section AnalyzerFacts.

Import QueryAnalyzer StrategySelector.

Lemma extract_loop_filter words :
  Forall (fun w => w ≠ EmptyString) words ->
  extract_loop words = Returned (filter entity_like words).
Proof.
  induction 1 as [|w words Hw _ IH]; [done|].
  destruct w as [|c w]; [done|]. simpl. rewrite IH.
  unfold mbind, mret, outcome_bind, outcome_ret, obind.
  rewrite filter_cons. unfold entity_like at 1. simpl.
  destruct (PyStr.is_upper_ascii c) eqn:Eu; simpl.
  - destruct (Nat.ltb_spec 2 (S (String.length w))).
    + rewrite decide_True; [done|].
      split; [simpl; by rewrite Eu | simpl; lia].
    + rewrite decide_False; [done|]. intros [_ ?]. simpl in *. lia.
  - rewrite decide_False; [done|]. intros [? _]. simpl in *. congruence.
Qed.

(** X1. The analysis of a query never raises, whatever the text (empty,
    blank, any characters): [word[0]] is only taken on words of [split()],
    which are never empty. The entities it reports are exactly the words
    that start with an upper-case letter and have more than two characters,
    in the order of the text. *)
Theorem analyze_query_entities (fresh_id query_text : string) :
  ∃ q,
    analyze_query fresh_id query_text = Returned q
    ∧ q_id q = fresh_id
    ∧ q_text q = query_text
    ∧ entities_mentioned q = filter entity_like (PyStr.split query_text)
    ∧ entities_mentioned q `sublist_of` PyStr.split query_text
    ∧ (length (entities_mentioned q) <= length (PyStr.split query_text))%nat.
Proof.
  assert (_extract_entities query_text
          = Returned (filter entity_like (PyStr.split query_text))) as He.
  { apply extract_loop_filter, split_go_nonempty. constructor. }
  unfold analyze_query. rewrite He. eexists. split; [reflexivity|]. simpl.
  repeat split.
  - apply sublist_filter.
  - apply length_filter.
Qed.

Lemma Qmin_nonneg x y : (0 <= x)%Q -> (0 <= y)%Q -> (0 <= Qmin x y)%Q.
Proof. intros. by apply Q.min_glb. Qed.

Lemma Qdiv_Z_nonneg (z : Z) (d : Q) : 0 <= z -> (0 < d)%Q -> (0 <= inject_Z z / d)%Q.
Proof.
  intros Hz Hd. unfold Qdiv. apply Qmult_le_0_compat.
  - change 0%Q with (inject_Z 0). by rewrite <- Zle_Qle.
  - apply Qinv_le_0_compat. by apply Qlt_le_weak.
Qed.

(** X2. The complexity score lies between 0 and 1 for every query text and
    every entity list: each of the four factors is non-negative and capped
    (0.3, 0.3, 0.2, 0.2), and their sum is capped at 1. *)
Theorem complexity_in_unit_interval (query_text : string) (entities : list string) :
  (0 <= length_factor query_text <= 3 # 10)%Q
  ∧ (0 <= entity_factor entities <= 3 # 10)%Q
  ∧ (0 <= op_factor query_text <= 2 # 10)%Q
  ∧ (0 <= question_factor query_text <= 2 # 10)%Q
  ∧ (0 <= _calculate_complexity query_text entities <= 1)%Q.
Proof.
  assert (0 <= length_factor query_text <= 3 # 10)%Q as H1.
  { split; [|apply Q.le_min_r].
    apply Qmin_nonneg; [|done]. apply Qdiv_Z_nonneg; [unfold PyStr.len; lia | done]. }
  assert (0 <= entity_factor entities <= 3 # 10)%Q as H2.
  { split; [|apply Q.le_min_r].
    apply Qmin_nonneg; [|done]. apply Qdiv_Z_nonneg; [lia | done]. }
  assert (0 <= op_factor query_text <= 2 # 10)%Q as H3.
  { split; [|apply Q.le_min_r].
    apply Qmin_nonneg; [|done]. apply Qdiv_Z_nonneg; [unfold count_in; lia | done]. }
  assert (0 <= question_factor query_text <= 2 # 10)%Q as H4.
  { split; [|apply Q.le_min_r].
    apply Qmin_nonneg; [|done]. apply Qdiv_Z_nonneg; [unfold count_in; lia | done]. }
  repeat split; try tauto.
  - unfold _calculate_complexity. apply Qmin_nonneg; [|done].
    destruct H1, H2, H3, H4. lra.
  - apply complexity_le_1.
Qed.

Lemma determine_intent_cases query_lower :
  (any_in entity_keywords query_lower = true
   ∧ _determine_intent query_lower = "entity_lookup")
  ∨ (any_in entity_keywords query_lower = false
     ∧ any_in relationship_keywords query_lower = true
     ∧ _determine_intent query_lower = "relationship_exploration")
  ∨ (any_in entity_keywords query_lower = false
     ∧ any_in relationship_keywords query_lower = false
     ∧ any_in filter_keywords query_lower = true
     ∧ _determine_intent query_lower = "filtered_search")
  ∨ (any_in entity_keywords query_lower = false
     ∧ any_in relationship_keywords query_lower = false
     ∧ any_in filter_keywords query_lower = false
     ∧ _determine_intent query_lower = "general_search").
Proof.
  unfold _determine_intent.
  destruct (any_in entity_keywords query_lower); [by left|].
  destruct (any_in relationship_keywords query_lower); [right; by left|].
  destruct (any_in filter_keywords query_lower); [right; right; by left|].
  right; right; by right.
Qed.

(** X3. For an analyzed query the intent is always one of the four keys of
    the selector's rule table, so the fallback of the lookup is never
    used; graph-only is selected only when the lower-cased text has no
    entity keyword but a relationship keyword, and filter-only only when
    it has neither but a filter keyword; a text containing "where" never
    gets filter-only, although "where" is listed as a filter keyword. *)
Theorem selection_after_analysis (fresh_id query_text : string) :
  ∃ q,
    analyze_query fresh_id query_text = Returned q
    ∧ is_Some (strategy_rules !! intent q)
    ∧ (select_strategy q = GRAPH_ONLY ->
         any_in entity_keywords (PyStr.lower query_text) = false
         ∧ any_in relationship_keywords (PyStr.lower query_text) = true)
    ∧ (select_strategy q = LOGICAL_FILTER ->
         any_in entity_keywords (PyStr.lower query_text) = false
         ∧ any_in relationship_keywords (PyStr.lower query_text) = false
         ∧ any_in filter_keywords (PyStr.lower query_text) = true)
    ∧ (PyStr.contains "where" (PyStr.lower query_text) = true ->
         select_strategy q ≠ LOGICAL_FILTER).
Proof.
  destruct (analyze_query_returns fresh_id query_text) as (entities & _ & Hq).
  eexists. split; [exact Hq|]. unfold select_strategy. simpl.
  destruct (determine_intent_cases (PyStr.lower query_text))
    as [[He ->]|[(He & Hr & ->)|[(He & Hr & Hf & ->)|(He & Hr & Hf & ->)]]];
    (split; [by eexists|]);
    destruct (Qltb _ (3 # 10)); try (repeat split; intros; discriminate);
    destruct (Qltb (7 # 10) _); try (repeat split; intros; discriminate);
    simpl; repeat split; try done; try discriminate.
  all: intros Hw; exfalso; unfold any_in, entity_keywords in He; simpl in He;
    rewrite Hw in He; by rewrite ?orb_true_r in He.
Qed.

End AnalyzerFacts.

(** ** Deduplication and sorting *)

Section Dedup.

Implicit Types (seen : gset string) (l : list RetrievalResult).

Lemma dedup_go_elem seen l r :
  r ∈ dedup_go seen l -> r ∈ l ∧ content_key r ∉ seen.
Proof.
  revert seen. induction l as [|x l IH]; intros seen; simpl; [by intros ?%elem_of_nil|].
  fold (content_key x). destruct (decide (content_key x ∈ seen)) as [Hin|Hnin].
  - intros [? ?]%IH. split; [by right | done].
  - intros [->|[? ?]%IH]%elem_of_cons; [split; [by left | done]|].
    split; [by right | set_solver].
Qed.

Lemma dedup_go_sublist seen l : dedup_go seen l `sublist_of` l.
Proof.
  revert seen. induction l as [|x l IH]; intros seen; simpl; [done|].
  destruct (decide _); [by apply sublist_cons | by apply sublist_skip].
Qed.

Lemma dedup_go_keys_NoDup seen l : NoDup (map content_key (dedup_go seen l)).
Proof.
  revert seen. induction l as [|x l IH]; intros seen; simpl; [constructor|].
  fold (content_key x). destruct (decide (content_key x ∈ seen)); [apply IH|].
  simpl. constructor; [|apply IH].
  intros (r & Hk & Hr)%list_elem_of_fmap. apply dedup_go_elem in Hr as [_ Hr].
  rewrite Hk in Hr. set_solver.
Qed.

(** Every key of the input that was not seen before is a key of the
    output. *)
Lemma dedup_go_covers seen l r :
  r ∈ l -> content_key r ∉ seen ->
  ∃ r', r' ∈ dedup_go seen l ∧ content_key r' = content_key r.
Proof.
  revert seen. induction l as [|x l IH]; intros seen; [by intros ?%elem_of_nil|].
  intros Hin Hk. simpl. fold (content_key x).
  destruct (decide (content_key x = content_key r)) as [E|NE].
  - rewrite decide_False by (by rewrite E). exists x. split; [by left | done].
  - apply elem_of_cons in Hin as [->|Hin]; [done|].
    destruct (decide (content_key x ∈ seen)).
    + by apply IH.
    + destruct (IH ({[content_key x]} ∪ seen) Hin) as (r' & Hr' & Hk'); [set_solver|].
      exists r'. split; [by right | done].
Qed.

Lemma dedup_go_app seen l1 l2 :
  dedup_go seen (l1 ++ l2) = dedup_go seen l1 ++ dedup_go (keys_of l1 ∪ seen) l2.
Proof.
  revert seen. induction l1 as [|x l1 IH]; intros seen; simpl.
  - f_equal. unfold keys_of. set_solver.
  - fold (content_key x). unfold keys_of. simpl. fold (keys_of l1).
    destruct (decide (content_key x ∈ seen)) as [Hin|Hnin].
    + rewrite IH. do 2 f_equal. set_solver.
    + simpl. rewrite IH. do 3 f_equal. set_solver.
Qed.

Lemma dedup_go_all_seen seen l : keys_of l ⊆ seen -> dedup_go seen l = [].
Proof.
  revert seen. induction l as [|x l IH]; intros seen H; simpl; [done|].
  fold (content_key x). unfold keys_of in H. simpl in H.
  rewrite decide_True by set_solver. apply IH. unfold keys_of. set_solver.
Qed.

Lemma dedup_go_fixed seen l :
  NoDup (map content_key l) -> (∀ r, r ∈ l -> content_key r ∉ seen) ->
  dedup_go seen l = l.
Proof.
  revert seen. induction l as [|x l IH]; intros seen Hnd Hs; simpl; [done|].
  fold (content_key x). simpl in Hnd. apply NoDup_cons in Hnd as [Hx Hnd].
  rewrite decide_False by (apply Hs; by left). f_equal. apply IH; [done|].
  intros r Hr. assert (content_key r ∉ seen) by (apply Hs; by right).
  assert (content_key r ≠ content_key x).
  { intros E. apply Hx. rewrite <- E. apply list_elem_of_fmap. by exists r. }
  set_solver.
Qed.

End Dedup.

(** X4. Deduplication keeps, for every content key of the input, exactly
    one result, and it is the first with that key; the output is a
    sub-sequence of the input whose keys are pairwise distinct. *)
Theorem dedup_keeps_first_of_each_key (l : list RetrievalResult) :
  dedup l `sublist_of` l
  ∧ NoDup (map content_key (dedup l))
  ∧ (∀ r, r ∈ l -> ∃ r', r' ∈ dedup l ∧ content_key r' = content_key r)
  ∧ (∀ l1 r l2, l = l1 ++ r :: l2 ->
       (∀ r', r' ∈ l1 -> content_key r' ≠ content_key r) ->
       r ∈ dedup l).
Proof.
  unfold dedup. repeat split.
  - apply dedup_go_sublist.
  - apply dedup_go_keys_NoDup.
  - intros r Hr. apply dedup_go_covers; [done | set_solver].
  - intros l1 r l2 -> Hfirst. rewrite dedup_go_app. apply elem_of_app. right.
    simpl. fold (content_key r). rewrite decide_False; [by left|].
    rewrite union_empty_r_L. unfold keys_of. rewrite elem_of_list_to_set.
    intros (r' & Hk & Hr')%list_elem_of_fmap. by apply (Hfirst r').
Qed.

(** X5. Deduplication is idempotent, and merging a result list with
    itself, or with its own deduplication, changes nothing; in a merge the
    results of the first list win: the deduplication of [l1 ++ l2] begins
    with the deduplication of [l1]. *)
Theorem dedup_idempotent (l l2 : list RetrievalResult) :
  dedup (dedup l) = dedup l
  ∧ dedup (l ++ l) = dedup l
  ∧ dedup (dedup l ++ dedup l) = dedup l
  ∧ dedup l `prefix_of` dedup (l ++ l2).
Proof.
  assert (dedup (dedup l) = dedup l) as Hid.
  { unfold dedup. apply dedup_go_fixed; [apply dedup_go_keys_NoDup | set_solver]. }
  assert (∀ l', dedup (l' ++ l') = dedup l') as Hself.
  { intros l'. unfold dedup. rewrite dedup_go_app.
    rewrite (dedup_go_all_seen (keys_of l' ∪ ∅) l') by apply union_subseteq_l.
    apply app_nil_r. }
  repeat split; [done| apply Hself | by rewrite Hself |].
  unfold dedup. rewrite dedup_go_app. by eexists.
Qed.

(** ** The stable descending sort *)

Section Sorting.

(** Where [insert_desc] puts its element: after the results that score
    strictly higher, before the first one that does not. *)
Lemma insert_desc_split x l :
  ∃ l1 l2,
    l = l1 ++ l2 ∧ insert_desc x l = l1 ++ x :: l2
    ∧ Forall (fun y => (score x < score y)%Q) l1.
Proof.
  induction l as [|y l (l1 & l2 & -> & Hi & Hl1)]; simpl.
  - by exists [], [].
  - destruct (Qltb (score x) (score y)) eqn:E.
    + exists (y :: l1), l2. rewrite Hi. split; [done|]. split; [done|].
      constructor; [by apply Qltb_lt | done].
    + by exists [], (y :: l1 ++ l2).
Qed.

Lemma insert_desc_filter c x l :
  filter (same_score c) (insert_desc x l) = filter (same_score c) (x :: l).
Proof.
  destruct (insert_desc_split x l) as (l1 & l2 & -> & -> & Hl1).
  rewrite filter_app, !filter_cons, filter_app.
  destruct (decide (same_score c x)) as [Hx|Hx]; [|done].
  assert (filter (same_score c) l1 = []) as ->; [|done].
  induction Hl1 as [|y l1 Hlt _ IH]; [done|].
  rewrite filter_cons_False; [done|]. intros Hy. unfold same_score in *.
  apply Qeq_bool_iff in Hx, Hy. rewrite Hx, Hy in Hlt. by apply Qlt_irrefl in Hlt.
Qed.

Lemma insert_desc_head x l :
  Forall (fun y => (score y <= score x)%Q) l -> insert_desc x l = x :: l.
Proof.
  destruct l as [|y l]; [done|]. intros [Hy _]%Forall_cons. simpl.
  by apply Qltb_ge in Hy as ->.
Qed.

End Sorting.

(** X6. The sort of the hybrid strategy returns a permutation of its
    input, ranked descending by score; it is stable: results of equal
    score keep their relative order; and it leaves a list that is already
    ranked as it is, so sorting twice is sorting once. *)
Theorem sort_by_score_desc_stable (l : list RetrievalResult) :
  sort_by_score_desc l ≡ₚ l
  ∧ descending (sort_by_score_desc l)
  ∧ (∀ c, filter (same_score c) (sort_by_score_desc l) = filter (same_score c) l)
  ∧ (descending l -> sort_by_score_desc l = l)
  ∧ sort_by_score_desc (sort_by_score_desc l) = sort_by_score_desc l.
Proof.
  assert (∀ l', descending l' -> sort_by_score_desc l' = l') as Hfix.
  { unfold descending. induction 1 as [|y l' Hl IH Hy]; simpl; [done|].
    rewrite IH. by apply insert_desc_head. }
  repeat split.
  - apply sort_by_score_desc_perm.
  - apply sort_by_score_desc_descending.
  - intros c. induction l as [|x l IH]; simpl; [done|].
    by rewrite insert_desc_filter, !filter_cons, IH.
  - apply Hfix.
  - apply Hfix, sort_by_score_desc_descending.
Qed.

(** ** More on the orchestrator *)

Section OrchestratorFacts.

Variable tools : Tools.

Lemma py_slice_to_sublist {A} n (l : list A) : py_slice_to n l `sublist_of` l.
Proof. unfold py_slice_to. destruct (0 <=? n); apply sublist_take. Qed.

Lemma oconcat_map_Forall {A B} (P : B -> Prop) (f : A -> outcome (list B)) xs ys :
  (∀ x zs, f x = Returned zs -> Forall P zs) ->
  oconcat_map f xs = Returned ys -> Forall P ys.
Proof.
  intros Hf. revert ys. induction xs as [|x xs IH]; simpl; intros ys.
  - by intros [= <-].
  - destruct (f x) as [e|zs] eqn:Ez; [done|]. simpl.
    destruct (oconcat_map f xs) as [e|ws]; [done|]. simpl. intros [= <-].
    apply Forall_app. split; [by eapply Hf | by apply IH].
Qed.

Lemma graph_collect_from_triple driver q n found :
  graph_collect driver q n = Returned found -> Forall from_triple found.
Proof.
  assert (∀ ts : list Triple, Forall from_triple (map triple_to_result ts)) as Hmap.
  { intros ts. apply Forall_fmap, Forall_forall. intros t _. by exists t. }
  unfold graph_collect.
  destruct (entities_mentioned q) as [|entity entities];
    (destruct (session driver) as [e|[]]; [done|]);
    unfold mbind at 1, outcome_bind, obind.
  - destruct (run_general driver (q_text q) n) as [e|ts]; [done|].
    intros [= <-]. apply Hmap.
  - apply oconcat_map_Forall. intros entity_name zs.
    destruct (run_find driver entity_name) as [e|nodes]; [done|].
    unfold mbind at 1, outcome_bind, obind.
    apply oconcat_map_Forall. intros node ws.
    destruct (run_neighborhood driver (node_id node) _) as [e|ts]; [done|].
    intros [= <-]. apply Hmap.
Qed.

Lemma vector_pass_from_hit q n : Forall from_hit (vector_pass tools q n).
Proof.
  unfold vector_pass, value_of, _vector_retrieval.
  destruct (chroma_client tools) as [client|]; [|constructor]. run_m.
  destruct (vector_search_call tools client q n) as [e|hits]; simpl; [constructor|].
  apply Forall_fmap, Forall_forall. intros h _. by exists h.
Qed.

Lemma graph_pass_from_triple q n : Forall from_triple (graph_pass tools q n).
Proof.
  unfold graph_pass, value_of, _graph_retrieval.
  destruct (neo4j_driver tools) as [driver|]; [|constructor]. run_m.
  destruct (graph_collect driver q n) as [e|found] eqn:E; simpl; [constructor|].
  apply Forall_forall. intros r Hr.
  eapply elem_of_sublist in Hr; [|apply py_slice_to_sublist].
  revert r Hr. apply Forall_forall. by eapply graph_collect_from_triple.
Qed.

Lemma graph_pass_length q n : 0 <= n -> Z.of_nat (length (graph_pass tools q n)) <= n.
Proof.
  intros Hn. unfold graph_pass, value_of, _graph_retrieval.
  destruct (neo4j_driver tools) as [driver|]; [|simpl; lia]. run_m.
  destruct (graph_collect driver q n) as [e|found]; simpl; [lia|].
  by apply py_slice_to_length.
Qed.

Lemma hybrid_pass_from q n r :
  r ∈ hybrid_pass tools q n ->
  r ∈ vector_pass tools q (n `div` 2) ∨ r ∈ graph_pass tools q (n `div` 2).
Proof.
  rewrite hybrid_pass_eq. intros Hr.
  eapply elem_of_sublist in Hr; [|apply py_slice_to_sublist].
  rewrite sort_by_score_desc_perm in Hr.
  eapply elem_of_sublist in Hr; [|apply dedup_go_sublist].
  by apply elem_of_app in Hr.
Qed.

Lemma hybrid_pass_keys_NoDup q n : NoDup (map content_key (hybrid_pass tools q n)).
Proof.
  rewrite hybrid_pass_eq.
  eapply sublist_NoDup; [|apply (fmap_sublist content_key), py_slice_to_sublist].
  change (NoDup (content_key <$> sort_by_score_desc
            (dedup (vector_pass tools q (n `div` 2) ++ graph_pass tools q (n `div` 2))))).
  rewrite sort_by_score_desc_perm. apply dedup_go_keys_NoDup.
Qed.

End OrchestratorFacts.

Section RetrieveFacts.

Variable tools : Tools.

Lemma vector_pass_source q n :
  Forall (fun r => source_type r = "vector") (vector_pass tools q n).
Proof.
  unfold vector_pass, value_of, _vector_retrieval.
  destruct (chroma_client tools) as [client|]; [|constructor]. run_m.
  destruct (vector_search_call tools client q n) as [e|hits]; simpl; [constructor|].
  by apply Forall_fmap, Forall_forall.
Qed.

Lemma strategy_results_from s q n r :
  r ∈ value_of (run_strategy tools s q n) ->
  ∃ k, r ∈ vector_pass tools q k ∨ r ∈ graph_pass tools q k.
Proof.
  destruct s; unfold run_strategy.
  - intros H. exists n. by left.
  - intros H. exists n. by right.
  - by intros ?%elem_of_nil.
  - intros H. exists (n `div` 2). by apply hybrid_pass_from.
  - unfold value_of. rewrite (run_adaptive tools q n []). simpl. intros H.
    eapply elem_of_sublist in H; [|apply py_slice_to_sublist].
    unfold adaptive_all in H.
    destruct (good_initial tools (vector_pass tools q (n `div` 3))).
    + exists (n `div` 3). by apply elem_of_app in H.
    + exists (n `div` 2). by apply hybrid_pass_from.
Qed.

Lemma strategy_results_length s q n :
  s ≠ VECTOR_ONLY -> 0 <= n ->
  Z.of_nat (length (value_of (run_strategy tools s q n))) <= n.
Proof.
  intros Hs Hn. destruct s; unfold run_strategy; [done| | | |].
  - by apply graph_pass_length.
  - simpl. lia.
  - change (Z.of_nat (length (hybrid_pass tools q n)) <= n).
    rewrite hybrid_pass_eq. by apply py_slice_to_length.
  - unfold value_of. rewrite (run_adaptive tools q n []). simpl.
    by apply py_slice_to_length.
Qed.

End RetrieveFacts.

(** X7. The results of a hybrid retrieval have pairwise distinct content
    keys, each of them comes from the vector pass or from the graph pass
    for [max_results // 2], and a graph result is among them only when no
    vector result has its content key. *)
Theorem hybrid_merge_is_vector_first (tools : Tools) (fresh_id query_text : string)
  (strategy : option RetrievalStrategy) (max_results : Z) :
  ∃ q resp,
    QueryAnalyzer.analyze_query fresh_id query_text = Returned q
    ∧ retrieve tools fresh_id query_text strategy max_results = Returned resp
    ∧ (strategy_used resp = "hybrid" ->
       NoDup (map content_key (results resp))
       ∧ (∀ r, r ∈ results resp ->
            r ∈ vector_pass tools q (max_results `div` 2)
            ∨ r ∈ graph_pass tools q (max_results `div` 2))
       ∧ (∀ r v, r ∈ results resp -> source_type r = "graph" ->
            v ∈ vector_pass tools q (max_results `div` 2) ->
            content_key v ≠ content_key r)).
Proof.
  destruct (retrieve_returns tools fresh_id query_text strategy max_results)
    as (q & Hq & Hr).
  simpl in Hr. exists q. eexists. split; [exact Hq|]. split; [exact Hr|]. simpl.
  destruct (default (StrategySelector.select_strategy q) strategy); try discriminate.
  intros _. change (value_of (run_strategy tools HYBRID q max_results))
    with (hybrid_pass tools q max_results).
  split; [apply hybrid_pass_keys_NoDup|]. split; [apply hybrid_pass_from|].
  intros r v Hr' Hs Hv Hk. rewrite hybrid_pass_eq in Hr'.
  eapply elem_of_sublist in Hr'; [|apply py_slice_to_sublist].
  rewrite sort_by_score_desc_perm in Hr'. unfold dedup in Hr'.
  rewrite dedup_go_app in Hr'. apply elem_of_app in Hr' as [Hr'|Hr'].
  - apply dedup_go_elem in Hr' as [Hr' _].
    pose proof (vector_pass_source tools q (max_results `div` 2)) as Hsrc.
    rewrite Forall_forall in Hsrc. rewrite (Hsrc r Hr') in Hs. discriminate.
  - apply dedup_go_elem in Hr' as [_ Hr']. apply Hr'.
    apply elem_of_union_l. unfold keys_of. rewrite elem_of_list_to_set, <- Hk.
    apply list_elem_of_fmap. by exists v.
Qed.

(** X8. Under every strategy but vector-only the response holds at most
    [max_results] results when [max_results] is not negative; vector-only
    hands back the index's answer whole, whatever its length. *)
Theorem results_bounded_by_max_results (tools : Tools) (fresh_id query_text : string)
  (strategy : option RetrievalStrategy) (max_results : Z) :
  ∃ q resp,
    QueryAnalyzer.analyze_query fresh_id query_text = Returned q
    ∧ retrieve tools fresh_id query_text strategy max_results = Returned resp
    ∧ total_results resp = length (results resp)
    ∧ (0 <= max_results -> strategy_used resp ≠ "vector_only" ->
       Z.of_nat (length (results resp)) <= max_results)
    ∧ (∀ client hits,
         strategy_used resp = "vector_only" ->
         chroma_client tools = Some client ->
         vector_search_call tools client q max_results = Returned hits ->
         results resp = map hit_to_result hits
         ∧ length (results resp) = length hits).
Proof.
  destruct (retrieve_returns tools fresh_id query_text strategy max_results)
    as (q & Hq & Hr).
  simpl in Hr. exists q. eexists. split; [exact Hq|]. split; [exact Hr|]. simpl.
  split; [done|]. split.
  - intros Hm Hs. apply strategy_results_length; [|done].
    intros E. rewrite E in Hs. by apply Hs.
  - intros client hits Hs Hc Hh.
    destruct (default (StrategySelector.select_strategy q) strategy); try discriminate.
    change (value_of (run_strategy tools VECTOR_ONLY q max_results))
      with (vector_pass tools q max_results).
    rewrite (vector_pass_hits tools q max_results client hits Hc Hh).
    split; [done|]. apply length_map.
Qed.

(** X9. Every result of a response was made by one of the two tools, from
    an index hit (score 1 - distance, source type vector) or from a graph
    triple (score the edge weight, or 0.5 without one, source type graph);
    no response holds a result of source type filter, so a response has at
    most two distinct source types. *)
Theorem results_are_tool_made (tools : Tools) (fresh_id query_text : string)
  (strategy : option RetrievalStrategy) (max_results : Z) :
  ∃ resp,
    retrieve tools fresh_id query_text strategy max_results = Returned resp
    ∧ (∀ r, r ∈ results resp ->
         (∃ hit, r = hit_to_result hit
                 ∧ (score r == 1 - hit_distance hit)%Q ∧ source_type r = "vector")
         ∨ (∃ center relation connected,
              r = triple_to_result (center, relation, connected)
              ∧ score r = default (1 # 2)%Q (rel_weight relation)
              ∧ source_type r = "graph"))
    ∧ (∀ r, r ∈ results resp -> source_type r ≠ "filter")
    ∧ (size (list_to_set (map source_type (results resp)) : gset string) <= 2)%nat.
Proof.
  destruct (retrieve_returns tools fresh_id query_text strategy max_results)
    as (q & Hq & Hr).
  simpl in Hr. eexists. split; [exact Hr|]. simpl.
  set (rs := value_of (run_strategy tools _ q max_results)).
  assert (∀ r, r ∈ rs ->
    (∃ hit, r = hit_to_result hit
            ∧ (score r == 1 - hit_distance hit)%Q ∧ source_type r = "vector")
    ∨ (∃ center relation connected,
         r = triple_to_result (center, relation, connected)
         ∧ score r = default (1 # 2)%Q (rel_weight relation)
         ∧ source_type r = "graph")) as Hmade.
  { intros r Hin. apply strategy_results_from in Hin as [k [Hin|Hin]].
    - pose proof (vector_pass_from_hit tools q k) as H.
      rewrite Forall_forall in H. destruct (H r Hin) as [hit ->].
      left. exists hit. by repeat split.
    - pose proof (graph_pass_from_triple tools q k) as H.
      rewrite Forall_forall in H. destruct (H r Hin) as [[[c rel] d] ->].
      right. exists c, rel, d. by repeat split. }
  split; [exact Hmade|].
  assert (∀ r, r ∈ rs -> source_type r = "vector" ∨ source_type r = "graph") as Hsrc.
  { intros r Hin.
    destruct (Hmade r Hin) as [(? & _ & _ & ->)|(? & ? & ? & _ & _ & ->)]; auto. }
  split.
  - intros r Hin Hf. destruct (Hsrc r Hin) as [E|E]; rewrite E in Hf; discriminate.
  - transitivity (size ({["vector"; "graph"]} : gset string)); [|done].
    apply subseteq_size. intros t Ht. apply elem_of_list_to_set in Ht.
    apply list_elem_of_fmap in Ht as (r & -> & Hin).
    destruct (Hsrc r Hin) as [->| ->]; set_solver.
Qed.

(** X11. When no result has a negative score, the confidence of a
    response is 0.0 exactly when the response has no results: a non-empty
    result list always gets a positive confidence, at least 0.14 from the
    complexity term alone. *)
Theorem confidence_zero_iff_no_results (tools : Tools) (fresh_id query_text : string)
  (strategy : option RetrievalStrategy) (max_results : Z) :
  ∃ resp,
    retrieve tools fresh_id query_text strategy max_results = Returned resp
    ∧ (results resp = [] -> confidence_score resp = 0%Q)
    ∧ ((∀ r, r ∈ results resp -> (0 <= score r)%Q) ->
       results resp ≠ [] -> (14 # 100 < confidence_score resp)%Q)
    ∧ ((∀ r, r ∈ results resp -> (0 <= score r)%Q) ->
       ((confidence_score resp == 0)%Q <-> results resp = [])).
Proof.
  destruct (retrieve_returns tools fresh_id query_text strategy max_results)
    as (q & Hq & Hr).
  simpl in Hr. eexists. split; [exact Hr|]. simpl.
  set (rs := value_of (run_strategy tools _ q max_results)).
  assert (rs = [] -> _calculate_confidence rs q = 0%Q) as H0 by (by intros ->).
  assert ((∀ r, r ∈ rs -> (0 <= score r)%Q) -> rs ≠ [] ->
          (14 # 100 < _calculate_confidence rs q)%Q) as Hpos.
  { intros Hs Hne. unfold _calculate_confidence.
    destruct rs as [|r rs'] eqn:E; [done|]. rewrite <- E in *.
    apply Q.min_glb_lt; [|done].
    assert (0 <= Qmean (map score rs))%Q as H1.
    { apply Qmean_nonneg, Forall_fmap, Forall_forall. exact Hs. }
    assert (0 < Qmin (inject_Z (Z.of_nat (length rs)) / 10) 1)%Q as H2.
    { apply Q.min_glb_lt; [|done]. apply Qlt_shift_div_l; [done|].
      rewrite Qmult_0_l. change 0%Q with (inject_Z 0). rewrite <- Zlt_Qlt.
      rewrite E. simpl. lia. }
    assert (0 <= inject_Z (Z.of_nat (size (list_to_set (map source_type rs)
                                           : gset string))) / 3)%Q as H3.
    { by apply Qnat_div_nonneg. }
    pose proof (analyze_query_complexity _ _ _ Hq) as Hc.
    revert H1 H2 H3.
    generalize (Qmean (map score rs)).
    generalize (Qmin (inject_Z (Z.of_nat (length rs)) / 10) 1).
    generalize (inject_Z (Z.of_nat (size (list_to_set (map source_type rs)
                                          : gset string))) / 3)%Q.
    intros d c a H1 H2 H3. lra. }
  split; [exact H0|]. split; [exact Hpos|].
  intros Hs. split.
  - intros Hz. destruct (decide (rs = [])) as [|Hne]; [done|].
    specialize (Hpos Hs Hne). rewrite Hz in Hpos. discriminate Hpos.
  - intros E. by rewrite (H0 E).
Qed.

(** ** More on the conversation memory *)

Section MemoryFacts.

Lemma most_recent_most_recent {A} (n k : nat) (l : list A) :
  most_recent n (most_recent k l) = most_recent (Nat.min n k) l.
Proof.
  unfold most_recent. rewrite length_drop, drop_drop. f_equal. lia.
Qed.

Lemma py_slice_from_neg {A} (w : Z) (l : list A) :
  0 < w -> py_slice_from (- w) l = most_recent (Z.to_nat w) l.
Proof.
  intros Hw. unfold py_slice_from, most_recent.
  replace (0 <=? - w) with false by lia. f_equal. lia.
Qed.

Lemma add_message_settings mem c m t mem' :
  add_message mem c m t = Returned mem' ->
  context_window mem' = context_window mem ∧ max_messages mem' = max_messages mem.
Proof.
  unfold add_message. destruct (conversations mem !! c) as [d|] eqn:Hc.
  - unfold mbind, outcome_bind, obind. rewrite Hc.
    destruct (conversation_metadata mem !! c); [|done]. by intros [= <-].
  - destruct (deque_new (max_messages mem)) as [e|d]; [done|].
    unfold mbind, mret, outcome_bind, outcome_ret, obind. simpl.
    rewrite !lookup_insert_eq. by intros [= <-].
Qed.

Lemma run_adds_settings calls mem mem' :
  run_adds mem calls = Returned mem' ->
  context_window mem' = context_window mem ∧ max_messages mem' = max_messages mem.
Proof.
  revert mem. induction calls as [|[[c m] t] calls IH]; intros mem; simpl.
  - by intros [= <-].
  - destruct (add_message mem c m t) as [e|mem1] eqn:E; [done|].
    unfold mbind, outcome_bind, obind. intros H. apply IH in H as [-> ->].
    by apply add_message_settings in E.
Qed.

End MemoryFacts.

(** X12. For a memory of any capacity and any positive context window,
    after any run of [add_message] calls from the empty state,
    [get_context] returns the most recent messages added to the
    conversation, as many as the smaller of capacity and window allows, in
    order; for a conversation that got no message it returns the empty
    list. A window of 0 returns the whole buffer, not nothing. *)
Theorem get_context_is_recent_window (cap : nat) (w : Z) (calls : list AddCall)
  (cid : string) :
  ∃ mem,
    run_adds (new_memory (Z.of_nat cap) w) calls = Returned mem
    ∧ (added_to cid calls = [] -> get_context mem cid = [])
    ∧ (0 < w ->
       get_context mem cid
       = most_recent (Nat.min (Z.to_nat w) cap) (added_to cid calls)
       ∧ Z.of_nat (length (get_context mem cid)) <= w)
    ∧ (w = 0 -> get_context mem cid = most_recent cap (added_to cid calls)).
Proof.
  destruct (run_adds_holds cap w calls) as (mem & Hrun & _ & H).
  exists mem. split; [exact Hrun|].
  assert (context_window mem = w) as Hw.
  { by apply run_adds_settings in Hrun as [-> _]. }
  unfold get_context. rewrite Hw. destruct (H cid) as [Hnil Hcons].
  destruct (decide (added_to cid calls = [])) as [E|E].
  - destruct (Hnil E) as [-> _]. rewrite E. split; [done|]. split.
    + intros Hpos. split; [done|]. simpl. lia.
    + done.
  - destruct (Hcons E) as [-> _]. simpl. split; [done|]. split.
    + intros Hpos. rewrite py_slice_from_neg by done.
      rewrite most_recent_most_recent. split; [done|].
      rewrite most_recent_length. lia.
    + intros ->. unfold py_slice_from. simpl. by rewrite drop_0.
Qed.

(** X13. For a memory of any capacity, after any run of [add_message]
    calls from the empty state the buffer of a conversation holds the most
    recent messages added to it, as many as the capacity allows, while
    [message_count] is the number of all of them; with capacity 0 the
    buffer stays empty and the count still grows. *)
Theorem buffer_bounded_by_capacity (cap : nat) (w : Z) (calls : list AddCall)
  (cid : string) :
  added_to cid calls ≠ [] ->
  ∃ mem ms,
    run_adds (new_memory (Z.of_nat cap) w) calls = Returned mem
    ∧ buffer mem cid = Some ms
    ∧ ms = most_recent cap (added_to cid calls)
    ∧ length ms = Nat.min cap (length (added_to cid calls))
    ∧ (cap = 0%nat -> ms = [])
    ∧ count_of mem cid = Some (Z.of_nat (length (added_to cid calls))).
Proof.
  intros Hne. destruct (run_adds_holds cap w calls) as (mem & Hrun & _ & H).
  destruct (H cid) as [_ Hcons]. destruct (Hcons Hne) as [Hc (md & Hm & Hn)].
  exists mem, (most_recent cap (added_to cid calls)).
  split; [exact Hrun|]. unfold buffer, count_of. rewrite Hc, Hm. simpl.
  repeat split; try done.
  - apply most_recent_length.
  - intros ->. unfold most_recent. rewrite Nat.sub_0_r. apply drop_all.
  - by rewrite Hn.
Qed.

(** X14. With a negative capacity the first message of any conversation
    raises the deque's [ValueError] and stores nothing; as [process_query]
    adds the user message before its [try], the exception reaches its
    caller. *)
Theorem negative_capacity_raises (tools : Tools) (llm_client : option LLMClient)
  (fmt2 : Q -> string) (fmt_nat : nat -> string) (cap w : Z) (cid : string)
  (message : ConversationMessage) (query : string) (ids : Uuids) (now : Z) :
  cap < 0 ->
  add_message (new_memory cap w) cid message now = Raised "maxlen must be non-negative"
  ∧ (∀ calls, calls ≠ [] ->
       run_adds (new_memory cap w) calls = Raised "maxlen must be non-negative")
  ∧ process_query tools llm_client fmt2 fmt_nat (new_memory cap w) query (Some cid) ids now
    = Raised "maxlen must be non-negative".
Proof.
  intros Hcap.
  assert (∀ c m t, add_message (new_memory cap w) c m t
                   = Raised "maxlen must be non-negative") as Hadd.
  { intros c m t. unfold add_message. simpl. rewrite lookup_empty.
    unfold deque_new. by replace (cap <? 0) with true by lia. }
  split; [apply Hadd|]. split.
  - intros [|[[c m] t] calls] Hne; [done|]. simpl. by rewrite Hadd.
  - unfold process_query. simpl. by rewrite Hadd.
Qed.

Section ClearFacts.

Lemma get_context_None mem cid :
  conversations mem !! cid = None -> get_context mem cid = [].
Proof. intros H. unfold get_context. by rewrite H. Qed.

End ClearFacts.

(** X15. Clearing a conversation of a memory filled by any run of
    [add_message] calls never raises; it answers whether the conversation
    existed, removes its buffer and its metadata, and leaves every other
    conversation as it was; the next message to the cleared conversation
    starts a new buffer with [message_count] 1. Clearing an unknown
    conversation changes nothing. *)
Theorem clear_conversation_forgets (cap : nat) (w : Z) (calls : list AddCall)
  (cid : string) :
  ∃ mem mem' existed,
    run_adds (new_memory (Z.of_nat cap) w) calls = Returned mem
    ∧ clear_conversation mem cid = Returned (mem', existed)
    ∧ (existed = true <-> added_to cid calls ≠ [])
    ∧ (existed = false -> mem' = mem)
    ∧ get_context mem' cid = []
    ∧ buffer mem' cid = None
    ∧ count_of mem' cid = None
    ∧ (∀ c, c ≠ cid ->
         buffer mem' c = buffer mem c ∧ count_of mem' c = count_of mem c
         ∧ get_context mem' c = get_context mem c)
    ∧ (∀ message now, ∃ mem'',
         add_message mem' cid message now = Returned mem''
         ∧ count_of mem'' cid = Some 1
         ∧ buffer mem'' cid = Some (most_recent cap [message])).
Proof.
  destruct (run_adds_holds cap w calls) as (mem & Hrun & Hcap & H).
  exists mem. destruct (H cid) as [Hnil Hcons]. unfold clear_conversation.
  assert (∀ mem1, max_messages mem1 = Z.of_nat cap ->
            conversations mem1 !! cid = None ->
            ∀ message now, ∃ mem'',
              add_message mem1 cid message now = Returned mem''
              ∧ count_of mem'' cid = Some 1
              ∧ buffer mem'' cid = Some (most_recent cap [message])) as Hnext.
  { intros mem1 Hc1 Hn message now. unfold add_message. rewrite Hn, Hc1.
    unfold deque_new. replace (Z.of_nat cap <? 0) with false by lia.
    unfold mbind, mret, outcome_bind, outcome_ret, obind. simpl.
    rewrite !lookup_insert_eq. eexists. split; [reflexivity|].
    unfold count_of, buffer. simpl. rewrite !lookup_insert_eq. simpl.
    split; [done|]. f_equal. rewrite Nat2Z.id.
    change [message] with ([] ++ [message]).
    change (@nil ConversationMessage) with (most_recent cap (@nil ConversationMessage)) at 1.
    pose proof (deque_append_most_recent cap [] message) as Hd.
    unfold deque_append in Hd. simpl in Hd. by injection Hd. }
  destruct (decide (added_to cid calls = [])) as [E|E].
  - destruct (Hnil E) as [Hc Hm]. rewrite Hc. exists mem, false.
    split; [done|]. split; [done|]. split; [split; [done|by intros []]|].
    split; [done|]. split; [by apply get_context_None|].
    unfold buffer, count_of. rewrite Hc, Hm. split; [done|]. split; [done|].
    split; [done|]. by apply Hnext.
  - destruct (Hcons E) as [Hc (md & Hm & Hn)]. rewrite Hc, Hm. eexists _, true.
    split; [done|]. split; [reflexivity|]. split; [done|]. split; [done|].
    unfold get_context, buffer, count_of. simpl. rewrite !lookup_delete_eq.
    split; [done|]. split; [done|]. split; [done|]. split.
    + intros c Hne. by rewrite !lookup_delete_ne.
    + apply Hnext; [done|]. simpl. apply lookup_delete_eq.
Qed.

Section ProcessQueryFacts.

Variable tools : Tools.
Variable llm_client : option LLMClient.
Variable fmt2 : Q -> string.
Variable fmt_nat : nat -> string.

Lemma generate_reasoning_chain_nil query context :
  generate_reasoning_chain query context []
  = Returned
      [mkReasoningStep "query_analysis"
         "Analyzed user query and conversation context" (9 # 10);
       mkReasoningStep "information_retrieval"
         "Retrieved relevant information from knowledge base" 0;
       mkReasoningStep "evidence_synthesis"
         "Synthesized evidence from multiple sources" (Qmin (7 # 10) 1)].
Proof. reflexivity. Qed.

(** The two ways a call of [process_query] can go once the user message
    is stored: retrieval found something and the reasoning chain raises,
    or it found nothing and the turn completes. *)
Lemma process_query_cases mem query conversation_id ids now mem1 resp :
  let cid := default (uuid_conversation ids) conversation_id in
  add_message mem cid (mkConversationMessage (uuid_user_message ids) "user" query now) now
  = Returned mem1 ->
  retrieve tools (uuid_query ids) query (Some ADAPTIVE) 10 = Returned resp ->
  (results resp ≠ [] ->
     process_query tools llm_client fmt2 fmt_nat mem query conversation_id ids now
     = Returned
         (mem1,
          mkRAGResponse (uuid_response ids) query
            (error_answer "argument of type 'RetrievalResult' is not iterable")
            [] [] 0%Q [] cid))
  ∧ (results resp = [] ->
     ∀ mem2,
       add_message mem1 cid
         (mkConversationMessage (uuid_response ids) "assistant"
            (_generate_answer llm_client fmt2 fmt_nat query [] (get_context mem1 cid)) now)
         now
       = Returned mem2 ->
       ∃ steps,
         generate_reasoning_chain query (get_context mem1 cid) [] = Returned steps
         ∧ length steps = 3%nat
         ∧ process_query tools llm_client fmt2 fmt_nat mem query conversation_id ids now
           = Returned
               (mem2,
                mkRAGResponse (uuid_response ids) query
                  (_generate_answer llm_client fmt2 fmt_nat query []
                     (get_context mem1 cid))
                  [] steps (confidence_score resp) [] cid)).
Proof.
  intros cid Hadd Hr. unfold process_query. fold cid. rewrite Hadd.
  unfold mbind at 1, outcome_bind, obind. split.
  - intros Hne.
    by rewrite (process_query_body_raises_on_results tools llm_client fmt2 fmt_nat
                  mem1 query cid (get_context mem1 cid) ids now resp Hr Hne).
  - intros Hnil mem2 Hadd2. eexists. split; [apply generate_reasoning_chain_nil|].
    split; [done|]. unfold process_query_body. rewrite Hr.
    unfold mbind, mret, outcome_bind, outcome_ret, obind. rewrite Hnil.
    rewrite generate_reasoning_chain_nil, Hadd2. simpl.
    by rewrite elements_empty.
Qed.

End ProcessQueryFacts.

(** X16. Whatever the tools, the language model and the query, the
    response of [process_query] has confidence 0.0, no supporting evidence
    and no sources: when retrieval finds results, building the reasoning
    chain from them raises, and the response is the apology with the error
    text; when it finds none, the turn completes with three reasoning steps
    and the answer generated for an empty result list. *)
Theorem process_query_confidence_is_zero (tools : Tools) (llm_client : option LLMClient)
  (fmt2 : Q -> string) (fmt_nat : nat -> string) (mem : ConversationMemory)
  (query : string) (given_id : option string) (ids : Uuids) (now : Z) :
  mem_wf mem ->
  ∃ resp mem1 mem' r,
    retrieve tools (uuid_query ids) query (Some ADAPTIVE) 10 = Returned resp
    ∧ add_message mem (default (uuid_conversation ids) given_id)
        (mkConversationMessage (uuid_user_message ids) "user" query now) now
      = Returned mem1
    ∧ process_query tools llm_client fmt2 fmt_nat mem query given_id ids now
      = Returned (mem', r)
    ∧ rag_confidence_score r = 0%Q
    ∧ supporting_evidence r = []
    ∧ sources_used r = []
    ∧ response_id r = uuid_response ids
    ∧ conversation_id r = default (uuid_conversation ids) given_id
    ∧ (results resp ≠ [] ->
       answer r = error_answer "argument of type 'RetrievalResult' is not iterable"
       ∧ reasoning_steps r = [])
    ∧ (results resp = [] ->
       answer r
       = _generate_answer llm_client fmt2 fmt_nat query []
           (get_context mem1 (default (uuid_conversation ids) given_id))
       ∧ map step_type (reasoning_steps r)
         = ["query_analysis"; "information_retrieval"; "evidence_synthesis"]).
Proof.
  intros Hwf.
  destruct (retrieve_returns tools (uuid_query ids) query (Some ADAPTIVE) 10)
    as (q & Hq & Hr). cbn zeta in Hr.
  match type of Hr with _ = Returned ?x => set (resp := x) in * end.
  assert (results resp = [] -> confidence_score resp = 0%Q) as Hconf.
  { subst resp. simpl. by intros ->. }
  clearbody resp.
  destruct (add_message_wf mem (default (uuid_conversation ids) given_id)
              (mkConversationMessage (uuid_user_message ids) "user" query now) now Hwf)
    as (mem1 & Hadd & Hwf1).
  destruct (process_query_cases tools llm_client fmt2 fmt_nat mem query given_id
              ids now mem1 resp Hadd Hr) as [Hfail Hok].
  exists resp, mem1.
  destruct (decide (results resp = [])) as [E|E].
  - destruct (add_message_wf mem1 (default (uuid_conversation ids) given_id)
      (mkConversationMessage (uuid_response ids) "assistant"
         (_generate_answer llm_client fmt2 fmt_nat query []
            (get_context mem1 (default (uuid_conversation ids) given_id))) now)
      now Hwf1) as (mem2 & Hadd2 & _).
    destruct (Hok E mem2 Hadd2) as (steps & Hsteps & _ & Hp).
    eexists _, _. split; [exact Hr|]. split; [exact Hadd|]. split; [exact Hp|].
    simpl. rewrite generate_reasoning_chain_nil in Hsteps.
    injection Hsteps as <-. rewrite (Hconf E). by repeat split.
  - eexists _, _. split; [exact Hr|]. split; [exact Hadd|].
    split; [exact (Hfail E)|]. simpl. by repeat split.
Qed.

(** X17. A call of [process_query] on a memory filled by any run of
    [add_message] calls leaves in the conversation's buffer what the run
    left followed by this turn, cut to the capacity: the user message and
    the assistant message when retrieval found nothing, the user message
    alone when it found results and the turn failed. [message_count] grows
    by 2, resp. by 1, and the other conversations are untouched. *)
Theorem process_query_records_turn (tools : Tools) (llm_client : option LLMClient)
  (fmt2 : Q -> string) (fmt_nat : nat -> string) (cap : nat) (w : Z)
  (calls : list AddCall) (query cid : string) (ids : Uuids) (now : Z) :
  ∃ mem resp mem' r,
    run_adds (new_memory (Z.of_nat cap) w) calls = Returned mem
    ∧ retrieve tools (uuid_query ids) query (Some ADAPTIVE) 10 = Returned resp
    ∧ process_query tools llm_client fmt2 fmt_nat mem query (Some cid) ids now
      = Returned (mem', r)
    ∧ let user := mkConversationMessage (uuid_user_message ids) "user" query now in
      let assistant :=
        mkConversationMessage (uuid_response ids) "assistant" (answer r) now in
      let turn := if decide (results resp = []) then [user; assistant] else [user] in
      buffer mem' cid = Some (most_recent cap (added_to cid calls ++ turn))
      ∧ count_of mem' cid
        = Some (Z.of_nat (length (added_to cid calls)) + Z.of_nat (length turn))
      ∧ ∀ c, c ≠ cid ->
          buffer mem' c = buffer mem c ∧ count_of mem' c = count_of mem c.
Proof.
  destruct (run_adds_holds cap w calls) as (mem & Hrun & Hh).
  destruct (retrieve_returns tools (uuid_query ids) query (Some ADAPTIVE) 10)
    as (q & Hq & Hr). cbn zeta in Hr.
  match type of Hr with _ = Returned ?x => set (resp := x) in *; clearbody resp end.
  set (user := mkConversationMessage (uuid_user_message ids) "user" query now).
  destruct (add_message_holds cap mem calls cid user now Hh) as (mem1 & Hadd & Hh1).
  destruct (process_query_cases tools llm_client fmt2 fmt_nat mem query (Some cid)
              ids now mem1 resp Hadd Hr) as [Hfail Hok].
  assert (∀ calls' mem0, holds cap mem0 calls' ->
            (∀ c, c ≠ cid -> added_to c calls' = added_to c calls) ->
            added_to cid calls' ≠ [] ->
            buffer mem0 cid = Some (most_recent cap (added_to cid calls'))
            ∧ count_of mem0 cid = Some (Z.of_nat (length (added_to cid calls')))
            ∧ ∀ c, c ≠ cid ->
                buffer mem0 c = buffer mem c ∧ count_of mem0 c = count_of mem c) as Hread.
  { intros calls' mem0 [_ H0] Hsame Hne. destruct Hh as [_ H].
    destruct (H0 cid) as [_ Hc]. destruct (Hc Hne) as [Hb (md & Hm & Hn)].
    unfold buffer, count_of. rewrite Hb, Hm. simpl. rewrite Hn.
    split; [done|]. split; [done|]. intros c Hcne.
    destruct (H0 c) as [Hn0 Hc0]. destruct (H c) as [Hn1 Hc1].
    rewrite (Hsame c Hcne) in Hn0, Hc0.
    destruct (decide (added_to c calls = [])) as [E|E].
    - destruct (Hn0 E) as [-> ->]. by destruct (Hn1 E) as [-> ->].
    - destruct (Hc0 E) as [-> (md0 & -> & Hmd0)].
      destruct (Hc1 E) as [-> (md1 & -> & Hmd1)]. simpl. split; [done|].
      by rewrite Hmd0, Hmd1. }
  exists mem, resp.
  destruct (decide (results resp = [])) as [E|E].
  - set (assistant :=
           mkConversationMessage (uuid_response ids) "assistant"
             (_generate_answer llm_client fmt2 fmt_nat query [] (get_context mem1 cid)) now).
    destruct (add_message_holds cap mem1 _ cid assistant now Hh1) as (mem2 & Hadd2 & Hh2).
    destruct (Hok E mem2 Hadd2) as (steps & _ & _ & Hp).
    eexists _, _. split; [exact Hrun|]. split; [exact Hr|]. split; [exact Hp|].
    cbn zeta. simpl answer. fold user assistant.
    destruct (Hread _ mem2 Hh2) as (Hb & Hc & Ho).
    + intros c Hne. rewrite !added_to_snoc. by rewrite !decide_False, !app_nil_r.
    + rewrite !added_to_snoc, !decide_True by done. by destruct (added_to cid calls).
    + rewrite !added_to_snoc, !decide_True, <- app_assoc in Hb, Hc by done.
      rewrite Hb, Hc. split; [done|]. split; [|done].
      rewrite length_app. simpl. f_equal. lia.
  - eexists _, _. split; [exact Hrun|]. split; [exact Hr|]. split; [exact (Hfail E)|].
    cbn zeta. fold user.
    destruct (Hread _ mem1 Hh1) as (Hb & Hc & Ho).
    + intros c Hne. rewrite added_to_snoc. by rewrite decide_False, app_nil_r.
    + rewrite added_to_snoc, decide_True by done. by destruct (added_to cid calls).
    + rewrite added_to_snoc, decide_True in Hb, Hc by done.
      rewrite Hb, Hc. split; [done|]. split; [|done].
      rewrite length_app. simpl. f_equal. lia.
Qed.

(** ** The reasoning engine on dictionaries *)

Section SynthesisFacts.

Lemma grouped_results_snoc results r :
  grouped_results (results ++ [r])
  = <[group_key r := default [] (grouped_results results !! group_key r) ++ [r]]>
      (grouped_results results).
Proof.
  unfold grouped_results. rewrite foldl_app. simpl.
  set (g := foldl _ ∅ results).
  destruct (g !! group_key r) as [l|] eqn:E; simpl; [by rewrite E|].
  rewrite lookup_insert_eq. simpl. by rewrite insert_insert_eq.
Qed.

(** Each group holds the results that have its key, in their order. *)
Lemma grouped_results_lookup results k :
  grouped_results results !! k
  = let group := filter (fun r => group_key r = k) results in
    if decide (group = []) then None else Some group.
Proof.
  induction results as [|r results IH] using rev_ind; [done|].
  rewrite grouped_results_snoc, filter_app. cbn zeta in *.
  destruct (decide (group_key r = k)) as [<-|Hne].
  - rewrite lookup_insert_eq, IH, filter_cons_True by done. simpl.
    set (group := filter (λ r0, group_key r0 = group_key r) results).
    rewrite filter_nil.
    rewrite (decide_False (P := group ++ [r] = [])) by (by destruct group).
    by destruct (decide (group = [])) as [->|Hn].
  - rewrite lookup_insert_ne, IH, filter_cons_False by done. simpl.
    by rewrite app_nil_r.
Qed.

Lemma filter_key_nil results k :
  filter (fun r => group_key r = k) results = [] <-> k ∉ map group_key results.
Proof.
  induction results as [|r results IH]; simpl.
  - split; [intros _ H; by apply elem_of_nil in H | done].
  - rewrite not_elem_of_cons, <- IH.
    destruct (decide (group_key r = k)) as [E|E].
    + rewrite filter_cons_True by done. split; [done|]. by intros [? _].
    + rewrite filter_cons_False by done. split; [|by intros [_ ?]].
      intros H. split; [|done]. by intros ->.
Qed.

Lemma grouped_results_dom results :
  dom (grouped_results results) = list_to_set (map group_key results).
Proof.
  apply set_eq. intros k. rewrite elem_of_dom, elem_of_list_to_set, grouped_results_lookup.
  cbn zeta. destruct (decide _) as [E|E].
  - apply filter_key_nil in E. split; [by intros [? ?]|done].
  - split; [intros _|by eexists].
    destruct (decide (k ∈ map group_key results)) as [?|Hn]; [done|].
    by apply filter_key_nil in Hn.
Qed.

Lemma gset_size_gt_1 (X : gset string) :
  (1 < size X)%nat <-> ∃ x y, x ∈ X ∧ y ∈ X ∧ x ≠ y.
Proof.
  split.
  - intros H.
    destruct (size_pos_elem_of X) as [x Hx]; [lia|].
    destruct (size_pos_elem_of (X ∖ {[x]})) as [y Hy].
    { rewrite size_difference by set_solver. rewrite size_singleton. lia. }
    exists x, y. set_solver.
  - intros (x & y & Hx & Hy & Hne).
    assert (({[x; y]} : gset string) ⊆ X) as Hsub by set_solver.
    apply subseteq_size in Hsub.
    rewrite size_union, !size_singleton in Hsub by set_solver. lia.
Qed.

Lemma total_count_insert_fresh (groups : gmap string nat) k n :
  groups !! k = None -> total_count (<[k := n]> groups) = (n + total_count groups)%nat.
Proof.
  intros H. unfold total_count.
  apply (map_fold_insert_L (fun _ n acc => (n + acc)%nat)); [|done].
  intros. lia.
Qed.

Lemma total_count_insert (groups : gmap string nat) k n :
  (total_count (<[k := n]> groups) + default 0 (groups !! k)
   = n + total_count groups)%nat.
Proof.
  destruct (groups !! k) as [n0|] eqn:E; simpl.
  - rewrite <- (insert_delete_eq groups k n).
    rewrite <- (insert_delete_id groups k n0 E) at 2.
    rewrite !total_count_insert_fresh by apply lookup_delete_eq. lia.
  - rewrite total_count_insert_fresh by done. lia.
Qed.

Lemma evidence_groups_total results :
  total_count (evidence_groups results) = length results.
Proof.
  unfold evidence_groups.
  induction results as [|r results IH] using rev_ind; [done|].
  rewrite grouped_results_snoc, fmap_insert, !length_app. simpl.
  pose proof (total_count_insert (length <$> grouped_results results) (group_key r)
                (length (default [] (grouped_results results !! group_key r) ++ [r])))
    as H.
  rewrite lookup_fmap, length_app in H. simpl in H.
  destruct (grouped_results results !! group_key r); simpl in *; lia.
Qed.

End SynthesisFacts.

(** X19. On result dictionaries, the grouping of [_synthesize_evidence]
    puts every result in the group of its source type, results without one
    going to [unknown]: a group holds exactly the results with its key, in
    the order they were given, and no group is empty. [evidence_groups]
    gives the size of each group, its keys are the source types that
    occur, and its counts add up to the number of results. The test for
    the confidence boost, more than one group, holds exactly when two
    results differ in their source type. *)
Theorem evidence_groups_partition_results (results : list ResultDict) :
  (∀ k group, grouped_results results !! k = Some group <->
     group = filter (fun r => group_key r = k) results ∧ group ≠ [])
  ∧ (∀ k n, evidence_groups results !! k = Some n <->
       n = length (filter (fun r => group_key r = k) results) ∧ n ≠ 0%nat)
  ∧ dom (evidence_groups results) = list_to_set (map group_key results)
  ∧ total_count (evidence_groups results) = length results
  ∧ (several_source_types results = true <->
     ∃ r1 r2, r1 ∈ results ∧ r2 ∈ results ∧ group_key r1 ≠ group_key r2).
Proof.
  split; [|split; [|split; [|split]]].
  - intros k group. rewrite grouped_results_lookup. cbn zeta.
    destruct (decide _) as [E|E]; split; try done.
    + intros [-> ?]. done.
    + intros [= <-]. done.
    + intros [-> _]. done.
  - intros k n. unfold evidence_groups.
    rewrite lookup_fmap, grouped_results_lookup. cbn zeta.
    destruct (decide _) as [E|E]; simpl; split; try done.
    + intros [-> H]. by rewrite E in H.
    + intros [= <-]. split; [done|].
      by destruct (filter _ results).
    + intros [-> _]. done.
  - unfold evidence_groups. rewrite dom_fmap_L. apply grouped_results_dom.
  - apply evidence_groups_total.
  - unfold several_source_types. rewrite Nat.ltb_lt, <- size_dom, grouped_results_dom.
    rewrite gset_size_gt_1. split.
    + intros (x & y & Hx & Hy & Hne).
      apply elem_of_list_to_set, list_elem_of_fmap in Hx as (r1 & -> & H1).
      apply elem_of_list_to_set, list_elem_of_fmap in Hy as (r2 & -> & H2).
      by exists r1, r2.
    + intros (r1 & r2 & H1 & H2 & Hne).
      exists (group_key r1), (group_key r2).
      split; [|split; [|done]];
        apply elem_of_list_to_set, list_elem_of_fmap; by eexists.
Qed.

(** X20. Drained to its end, [stream_response] yields two status events,
    the [retrieval_complete] event carrying the number of results and the
    confidence of the retrieval, and a third status event; then, when the
    retrieval found nothing, [reasoning_complete] with three steps, a
    status event and the [complete] event; when it found results, a single
    [error] event, the reasoning chain having raised on them. The last
    event is always [complete] or [error], and no earlier one is. *)
Theorem stream_response_events (tools : Tools) (llm_client : option LLMClient)
  (fmt2 : Q -> string) (fmt_nat : nat -> string) (mem : ConversationMemory)
  (query : string) (given_id : option string) (ids : Uuids) :
  let cid := default (uuid_conversation ids) given_id in
  let events := stream_response tools llm_client fmt2 fmt_nat mem query given_id ids in
  ∃ resp tail,
    retrieve tools (uuid_query ids) query (Some ADAPTIVE) 10 = Returned resp
    ∧ events
      = [EvStatus "Processing query..." (Some cid);
         EvStatus "Retrieving relevant information..." None;
         EvRetrievalComplete (length (results resp)) (confidence_score resp);
         EvStatus "Generating reasoning chain..." None] ++ tail
    ∧ (results resp = [] ->
       ∃ steps,
         tail = [EvReasoningComplete 3; EvStatus "Generating response..." None;
                 EvComplete
                   (_generate_answer llm_client fmt2 fmt_nat query [] (get_context mem cid))
                   [] steps cid])
    ∧ (results resp ≠ [] ->
       tail = [EvError "argument of type 'RetrievalResult' is not iterable" cid])
    ∧ (∃ front final,
         events = front ++ [final]
         ∧ (event_type final = "complete" ∨ event_type final = "error")
         ∧ ∀ ev, ev ∈ front -> event_type ev ≠ "complete" ∧ event_type ev ≠ "error").
Proof.
  cbn zeta.
  destruct (retrieve_returns tools (uuid_query ids) query (Some ADAPTIVE) 10)
    as (q & Hq & Hr). cbn zeta in Hr.
  match type of Hr with _ = Returned ?x => set (resp := x) in *; clearbody resp end.
  unfold stream_response. rewrite Hr. unfold stream_after_retrieval.
  exists resp. destruct (results resp) as [|r rs] eqn:E.
  - rewrite generate_reasoning_chain_nil. eexists. split; [done|]. split; [reflexivity|].
    split; [by eexists|]. split; [done|].
    eexists (_ :: _ :: _ :: _ :: _ :: [_]), _. split; [reflexivity|]. split; [by left|].
    intros ev Hev. repeat (apply elem_of_cons in Hev as [->|Hev]); try done.
    by apply elem_of_nil in Hev.
  - eexists. split; [done|]. split; [reflexivity|]. split; [done|]. split; [done|].
    eexists (_ :: _ :: _ :: [_]), _. split; [reflexivity|]. split; [by right|].
    intros ev Hev. repeat (apply elem_of_cons in Hev as [->|Hev]); try done.
    by apply elem_of_nil in Hev.
Qed.

(** ** Graph retrieval is all or nothing *)

Section GraphFacts.

Lemma oconcat_map_raises {A B} (f : A -> outcome (list B)) xs x e :
  x ∈ xs -> f x = Raised e -> ∃ e', oconcat_map f xs = Raised e'.
Proof.
  induction xs as [|y xs IH]; [by intros ?%elem_of_nil|].
  intros [->|Hin]%elem_of_cons Hx; simpl.
  - rewrite Hx. by eexists.
  - destruct (f y) as [e1|ys]; [by eexists|]. simpl.
    destruct (IH Hin Hx) as [e' ->]. by eexists.
Qed.

End GraphFacts.

(** X21. Graph retrieval is all or nothing: when the query mentions
    entities and the lookup of one of them raises, or the neighbourhood
    query of one node found raises, the graph pass returns nothing, also
    not what the other entities gave, and the chain records one
    [graph_search_error]. *)
Theorem graph_failure_discards_all (tools : Tools) (driver : Neo4jDriver)
  (q : RetrievalQuery) (n : Z) (entity : string) :
  neo4j_driver tools = Some driver ->
  session driver = Returned tt ->
  entity ∈ entities_mentioned q ->
  ((∃ e, run_find driver entity = Raised e)
   ∨ (∃ nodes node e,
        run_find driver entity = Returned nodes ∧ node ∈ nodes
        ∧ run_neighborhood driver (node_id node)
            (n `div` Z.of_nat (length (entities_mentioned q))) = Raised e)) ->
  graph_pass tools q n = []
  ∧ ∃ e', ∀ ch,
      _graph_retrieval tools q n ch
      = (ch ++ [GraphSearch (entities_mentioned q); GraphSearchError e'], Returned []).
Proof.
  intros Hd Hs Hin Hfail.
  assert (∃ e', graph_collect driver q n = Raised e') as [e' He'].
  { unfold graph_collect. destruct (entities_mentioned q) as [|x xs] eqn:E;
      [by apply elem_of_nil in Hin|].
    rewrite Hs. unfold mbind at 1, outcome_bind, obind.
    destruct Hfail as [[e He]|(nodes & node & e & Hf & Hnode & He)].
    - eapply (oconcat_map_raises _ _ entity); [exact Hin|]. by rewrite He.
    - destruct (oconcat_map_raises
                  (fun entity0 : Node =>
                     neighborhood_results ←
                       run_neighborhood driver (node_id entity0)
                         (n `div` Z.of_nat (length (x :: xs)));
                     mret (map triple_to_result neighborhood_results))
                  nodes node e Hnode) as [e1 He1]; [by rewrite He|].
      eapply (oconcat_map_raises _ _ entity); [exact Hin|].
      rewrite Hf. unfold mbind at 1, outcome_bind, obind. exact He1. }
  assert (graph_fails tools q n e') as Hgf by (by exists driver).
  split.
  - unfold graph_pass, value_of. by rewrite (run_graph_fails tools q n e' [] Hgf).
  - exists e'. intros ch. by apply run_graph_fails.
Qed.

Lemma graph_failure_discards_all_witness :
  graph_pass flaky_tools two_entity_query 10 = []
  ∧ ∃ e', ∀ ch,
      _graph_retrieval flaky_tools two_entity_query 10 ch
      = (ch ++ [GraphSearch ["Apple"; "Jobs"]; GraphSearchError e'], Returned []).
Proof.
  apply (graph_failure_discards_all flaky_tools flaky_driver two_entity_query 10 "Jobs").
  - reflexivity.
  - reflexivity.
  - simpl. apply elem_of_cons. right. apply elem_of_cons. by left.
  - left. by exists "query timed out"%string.
Defined.

(** ** The answer *)

Section AnswerFacts.

Lemma prefix_append s t : String.prefix s (s +:+ t) = true.
Proof.
  induction s as [|c s IH]; simpl; [by destruct t|].
  destruct (ascii_dec c c); [exact IH | done].
Qed.

Lemma prefix_append_l s a b : String.prefix s a = true -> String.prefix s (a +:+ b) = true.
Proof.
  revert a. induction s as [|c s IH]; intros a; simpl.
  - intros _. by destruct (a +:+ b).
  - destruct a as [|c' a]; [done|]. simpl.
    destruct (ascii_dec c c'); [apply IH | done].
Qed.

Lemma contains_append_l s a b : PyStr.contains s a = true -> PyStr.contains s (a +:+ b) = true.
Proof.
  induction a as [|c a IH]; simpl.
  - rewrite orb_false_r. intros H. destruct s; [|done]. by destruct b.
  - intros [H|H]%orb_true_iff; apply orb_true_iff.
    + left. by apply (prefix_append_l s (String c a) b).
    + right. by apply IH.
Qed.

Lemma contains_append_r s a b : PyStr.contains s b = true -> PyStr.contains s (a +:+ b) = true.
Proof.
  induction a as [|c a IH]; simpl; [done|].
  intros H. apply orb_true_iff. right. by apply IH.
Qed.

Lemma contains_prefix s h : String.prefix s h = true -> PyStr.contains s h = true.
Proof. intros H. destruct h; cbn [PyStr.contains]; by rewrite H. Qed.

Lemma contains_self s t : PyStr.contains s (s +:+ t) = true.
Proof. apply contains_prefix, prefix_append. Qed.

End AnswerFacts.

(** X22. Generating the answer never fails the request: without a
    language model, with a client that has neither interface, or when the
    model call raises, the answer is the extractive one, and a model that
    answers is quoted as it is. The extractive answer is a fixed sentence
    for an empty result list, and for a non-empty one it contains the
    content of the first result. *)
Theorem answer_degrades_to_extractive (fmt2 : Q -> string) (fmt_nat : nat -> string)
  (query : string) (retrieval_results : list RetrievalResult)
  (context : list ConversationMessage) :
  let fallback := _generate_fallback_answer fmt2 fmt_nat query retrieval_results in
  _generate_answer None fmt2 fmt_nat query retrieval_results context = fallback
  ∧ _generate_answer (Some OtherClient) fmt2 fmt_nat query retrieval_results context
    = fallback
  ∧ (∀ call e,
       call (build_prompt fmt2 query retrieval_results context) = Raised e ->
       _generate_answer (Some (ChatClient call)) fmt2 fmt_nat query retrieval_results context
       = fallback
       ∧ _generate_answer (Some (GenerateClient call)) fmt2 fmt_nat query
           retrieval_results context
         = fallback)
  ∧ (∀ call text,
       call (build_prompt fmt2 query retrieval_results context) = Returned text ->
       _generate_answer (Some (ChatClient call)) fmt2 fmt_nat query retrieval_results context
       = text
       ∧ _generate_answer (Some (GenerateClient call)) fmt2 fmt_nat query
           retrieval_results context
         = text)
  ∧ (∀ top rest, retrieval_results = top :: rest ->
       PyStr.contains (content top) fallback = true
       ∧ String.prefix "Based on the available information" fallback = true).
Proof.
  cbn zeta. split; [done|]. split; [done|]. split; [|split].
  - intros call e He. unfold _generate_answer, _generate_llm_answer. by rewrite He.
  - intros call text Ht. unfold _generate_answer, _generate_llm_answer. by rewrite Ht.
  - intros top rest ->. unfold _generate_fallback_answer.
    destruct (1 <? length (top :: rest))%nat; split.
    + do 2 apply contains_append_l. apply contains_append_r, contains_self.
    + by do 3 apply prefix_append_l.
    + apply contains_append_l. apply contains_append_r, contains_self.
    + by do 2 apply prefix_append_l.
Qed.

(** X23. Without a vector index an adaptive retrieval is a graph
    retrieval for half the budget: its results are the graph pass for
    [max_results // 2], deduplicated and sorted by score, at most
    [max_results // 2] of them. *)
Theorem adaptive_without_index_is_half_graph (tools : Tools) (fresh_id query_text : string)
  (max_results : Z) :
  chroma_client tools = None ->
  0 <= max_results ->
  ∃ q resp,
    QueryAnalyzer.analyze_query fresh_id query_text = Returned q
    ∧ retrieve tools fresh_id query_text (Some ADAPTIVE) max_results = Returned resp
    ∧ results resp
      = sort_by_score_desc (dedup (graph_pass tools q (max_results `div` 2)))
    ∧ Z.of_nat (length (results resp)) <= max_results `div` 2.
Proof.
  intros Hnone Hm.
  destruct (retrieve_returns tools fresh_id query_text (Some ADAPTIVE) max_results)
    as (q & Hq & Hr). cbn zeta in Hr.
  exists q. eexists. split; [exact Hq|]. split; [exact Hr|]. simpl.
  unfold value_of. rewrite (run_adaptive tools q max_results []). simpl.
  assert (∀ k, vector_pass tools q k = []) as Hv.
  { intros k. apply vector_down_pass. by left. }
  unfold adaptive_all. rewrite Hv. simpl. rewrite hybrid_pass_eq, Hv. simpl.
  set (g := graph_pass tools q (max_results `div` 2)).
  assert (Z.of_nat (length (sort_by_score_desc (dedup g))) <= max_results `div` 2) as Hlen.
  { rewrite sort_by_score_desc_perm.
    pose proof (sublist_length _ _ (dedup_go_sublist ∅ g)) as Hd. unfold dedup.
    pose proof (graph_pass_length tools q (max_results `div` 2)) as Hg.
    fold g in Hg. assert (0 <= max_results `div` 2) by (apply Z.div_pos; lia). lia. }
  assert (max_results `div` 2 <= max_results) as Hhalf.
  { apply Z.div_le_upper_bound; lia. }
  assert (py_slice_to max_results (sort_by_score_desc (dedup g))
          = sort_by_score_desc (dedup g)) as Hs.
  { unfold py_slice_to. replace (0 <=? max_results) with true by lia.
    apply take_ge. lia. }
  rewrite !Hs. by split.
Qed.

(** ** Worked cases for the further properties *)

Lemma buffer_bounded_by_capacity_witness :
  ∃ mem ms,
    run_adds (new_memory 3 6) demo_calls = Returned mem
    ∧ buffer mem "c1" = Some ms
    ∧ length ms = 3%nat.
Proof.
  destruct (buffer_bounded_by_capacity 3 6 demo_calls "c1")
    as (mem & ms & Hrun & Hb & _ & Hlen & _).
  - vm_compute. discriminate.
  - exists mem, ms. split; [exact Hrun|]. split; [exact Hb|]. rewrite Hlen. reflexivity.
Defined.

Lemma negative_capacity_raises_witness :
  process_query demo_tools None no_fmt2 no_fmt_nat (new_memory (-1) 6) "apple"
    (Some "c1"%string) demo_ids 0
  = Raised "maxlen must be non-negative".
Proof.
  apply (negative_capacity_raises demo_tools None no_fmt2 no_fmt_nat (-1) 6 "c1"
           (mkConversationMessage "m" "user" "hello" 0) "apple" demo_ids 0).
  lia.
Defined.

Lemma process_query_confidence_is_zero_witness :
  ∃ mem' r,
    process_query demo_tools None no_fmt2 no_fmt_nat default_memory "apple"
      (Some "c1"%string) demo_ids 0
    = Returned (mem', r)
    ∧ rag_confidence_score r = 0%Q
    ∧ supporting_evidence r = [].
Proof.
  destruct (process_query_confidence_is_zero demo_tools None no_fmt2 no_fmt_nat
              default_memory "apple" (Some "c1"%string) demo_ids 0)
    as (resp & mem1 & mem' & r & _ & _ & Hp & Hc & He & _).
  - split; [simpl; lia|]. intros cid [d Hd]. simpl in Hd.
    by rewrite lookup_empty in Hd.
  - exists mem', r. split; [exact Hp|]. split; [exact Hc | exact He].
Defined.

Lemma adaptive_without_index_is_half_graph_witness :
  ∃ resp,
    retrieve graph_only_tools "id" "apple" (Some ADAPTIVE) 10 = Returned resp
    ∧ Z.of_nat (length (results resp)) <= 5.
Proof.
  destruct (adaptive_without_index_is_half_graph graph_only_tools "id" "apple" 10)
    as (q & resp & _ & Hr & _ & Hlen).
  - reflexivity.
  - lia.
  - exists resp. split; [exact Hr | exact Hlen].
Defined.
